(** * katdal S3 chunk store: a shallow embedding of [katdal/chunkstore_s3.py]

    The development follows the Python module top to bottom: the timeout
    adapter, [_raise_for_status], the session pool [_Pool], and the
    [S3ChunkStore] class with its four chunk operations and the paginated
    listing.  Stateful code is written in a state-and-exception monad over
    a [World] that holds the idle sessions of the pool, the requests that
    reached the wire, and the warnings that were emitted.

    Library code (requests, urlparse, numpy, defusedxml) is not part of the
    module.  The pure functions of these libraries that the module calls are
    collected in the class [Libs]; the small parts of requests and
    ElementTree whose behaviour the module depends on are modelled from the
    libraries' documentation and marked as such. *)

From Stdlib Require Import List String Ascii Bool Arith ZArith QArith Lia.
From Stdlib.Strings Require Import Byte.
From Stdlib Require Import DecimalString DecimalZ.
Import ListNotations.

Local Open Scope string_scope.
Local Open Scope list_scope.
Local Open Scope nat_scope.

Set Implicit Arguments.
Set Warnings "-register-all".

(* ------------------------------------------------------------------ *)
(** ** Python values used by the module *)

(** A Python [str] attribute that may be [None] (an element's [text]). *)
Definition PyStr := option string.

(** Values stored in the [params] dict of a listing request. *)
Inductive PyVal :=
| PStr (s : string)
| PInt (z : Z)
| PNone.

Definition pyval_of_text (t : PyStr) : PyVal :=
  match t with Some s => PStr s | None => PNone end.

(** A dict with string keys, kept in insertion order. *)
Definition Dict (V : Type) := list (string * V).

(** [d[k] = v]: an existing key keeps its place, a new key goes last. *)
Fixpoint dict_set {V} (k : string) (v : V) (d : Dict V) : Dict V :=
  match d with
  | [] => [(k, v)]
  | (k', v') :: rest =>
      if String.eqb k' k then (k, v) :: rest else (k', v') :: dict_set k v rest
  end.

Fixpoint dict_get {V} (k : string) (d : Dict V) : option V :=
  match d with
  | [] => None
  | (k', v') :: rest => if String.eqb k' k then Some v' else dict_get k rest
  end.

(** [list.pop()]: the last item and the list without it. *)
Definition list_pop {A} (l : list A) : option (A * list A) :=
  match rev l with
  | [] => None
  | x :: r => Some (x, rev r)
  end.

(** [l[-1]] on a non-empty list. *)
Definition list_last {A} (l : list A) : option A :=
  match rev l with
  | [] => None
  | x :: _ => Some x
  end.

(** [s.endswith(suffix)] *)
Definition endswith (s suffix : string) : bool :=
  (String.length suffix <=? String.length s) &&
  String.eqb (substring (String.length s - String.length suffix)
                        (String.length suffix) s) suffix.

(** [s[a:-b]] for non-negative [a] and positive [b]. *)
Definition slice_to_neg (a b : nat) (s : string) : string :=
  substring a (String.length s - b - a) s.

Definition lower_ascii (c : ascii) : ascii :=
  let n := nat_of_ascii c in
  if (65 <=? n) && (n <=? 90) then ascii_of_nat (n + 32) else c.

(** [s.lower()] on an 8-bit string. *)
Fixpoint lower (s : string) : string :=
  match s with
  | EmptyString => EmptyString
  | String c r => String (lower_ascii c) (lower r)
  end.

(** [s.startswith(p)] *)
Definition startswith (s p : string) : bool := String.prefix p s.

(* ------------------------------------------------------------------ *)
(** ** Exceptions *)

(** The exception classes that occur in the module.  [ConnectionError],
    [HTTPError] and [InvalidSchema] are the subclasses of
    [requests.exceptions.RequestException] that the modelled part of
    requests raises. *)
Inductive ExcClass :=
| StoreUnavailable
| ChunkNotFound
| BadChunk
| RequestException
| ConnectionError
| HTTPError
| InvalidSchema
| ParseError
| ValueError
| AttributeError
| ImportError
| OtherError (name : string).

Definition ExcClass_eqb (a b : ExcClass) : bool :=
  match a, b with
  | StoreUnavailable, StoreUnavailable
  | ChunkNotFound, ChunkNotFound
  | BadChunk, BadChunk
  | RequestException, RequestException
  | ConnectionError, ConnectionError
  | HTTPError, HTTPError
  | InvalidSchema, InvalidSchema
  | ParseError, ParseError
  | ValueError, ValueError
  | AttributeError, AttributeError
  | ImportError, ImportError => true
  | OtherError n, OtherError m => String.eqb n m
  | _, _ => false
  end.

(** [issubclass(c, base)] *)
Definition issubclass (c base : ExcClass) : bool :=
  ExcClass_eqb c base ||
  match base, c with
  | RequestException, (ConnectionError | HTTPError | InvalidSchema) => true
  | _, _ => false
  end.

(** A raised exception: its class and [str(error)]. *)
Record Exc := mkExc { exc_class : ExcClass; exc_msg : string }.

Definition isinstance (e : Exc) (c : ExcClass) : bool :=
  issubclass (exc_class e) c.

(* ------------------------------------------------------------------ *)
(** ** ElementTree elements (the part of the API used by the listing) *)

Inductive Element :=
| Elem (tag : string) (text : PyStr) (children : list Element).

Definition tag (e : Element) : string := let (t, _, _) := e in t.
Definition text (e : Element) : PyStr := let (_, x, _) := e in x.
Definition children (e : Element) : list Element := let (_, _, c) := e in c.

(** [root.iter(t)]: the element itself and all its descendants, in
    document order, restricted to tag [t]. *)
Fixpoint iter (t : string) (e : Element) : list Element :=
  match e with
  | Elem tg _ ch =>
      (if String.eqb tg t then [e] else []) ++ flat_map (iter t) ch
  end.

(** [root.find(t)] with a plain tag: the first direct child with that tag,
    or [None]. *)
Definition find (t : string) (e : Element) : option Element :=
  List.find (fun c => String.eqb (tag c) t) (children e).

(** Truth value of the result of [find] in [if x:].  [None] is false; an
    element has no truth method of its own but has [__len__], the number
    of its children, so an element without children is false whatever its
    text. *)
Definition truth (x : option Element) : bool :=
  match x with
  | None => false
  | Some e => negb (Nat.eqb (List.length (children e)) 0)
  end.

(* ------------------------------------------------------------------ *)
(** ** Requests, responses and the wire *)

Inductive Method := GET | PUT | HEAD.

Definition Method_eqb (a b : Method) : bool :=
  match a, b with
  | GET, GET | PUT, PUT | HEAD, HEAD => true
  | _, _ => false
  end.

Record Request := mkRequest {
  req_method : Method;
  req_url : string;
  req_params : Dict PyVal;
  req_headers : Dict string;
  req_data : option (list byte);
  req_stream : bool
}.

Record Response := mkResponse {
  status_code : Z;
  content : list byte
}.

(** What went over the wire for one attempt: the request together with
    the timeout in force for it. *)
Record Transmission := mkTransmission {
  tx_request : Request;
  tx_timeout : option Q
}.

(** The outcome of one attempt: no response arrived (the connection
    could not be made, or it broke or timed out), or the exchange
    completed with a response (of any status) that carries no
    [Retry-After] header and is not a redirect to follow, or it
    completed with a response that carries a [Retry-After] header. *)
Inductive Attempt :=
| ConnFail (msg : string)
| Reply (r : Response)
| ReplyRetryAfter (r : Response).

(** [urllib3.Retry.RETRY_AFTER_STATUS_CODES] *)
Definition retry_after_status (status : Z) : bool :=
  ((status =? 413) || (status =? 429) || (status =? 503))%Z.

(** A backend answers an attempt knowing everything transmitted so far
    (oldest first). *)
Definition Backend := list Transmission -> Transmission -> Attempt.

(** [_TimeoutHTTPAdapter]: an [HTTPAdapter] (characterised by its
    [max_retries]) with a default timeout. *)
Record Adapter := mkAdapter {
  max_retries : nat;
  _default_timeout : option Q
}.

(** [requests.adapters.HTTPAdapter()]: requests' default is no retry. *)
Definition HTTPAdapter : Adapter :=
  {| max_retries := 0; _default_timeout := None |}.

(** [_TimeoutHTTPAdapter.__init__]: pops [timeout] from the keyword
    arguments and hands the rest to [HTTPAdapter.__init__]. *)
Definition _TimeoutHTTPAdapter (max_retries : nat) (timeout : option Q)
  : Adapter :=
  {| max_retries := max_retries; _default_timeout := timeout |}.

(** A [requests.Session]: its identity and its mounted adapters. *)
Record Session := mkSession {
  sid : nat;
  adapters : Dict Adapter
}.

(** [Session.mount]: register the adapter, then move every shorter prefix
    behind it, so that adapters stay ordered by descending prefix length. *)
Definition mount (prefix : string) (adapter : Adapter) (s : Session)
  : Session :=
  let d := dict_set prefix adapter (adapters s) in
  let shorter (kv : string * Adapter) :=
    String.length (fst kv) <? String.length prefix in
  {| sid := sid s;
     adapters := filter (fun kv => negb (shorter kv)) d ++ filter shorter d |}.

(** [requests.Session()] with identity [n]: plain adapters for both
    schemes. *)
Definition requests_Session (n : nat) : Session :=
  mount "http://" HTTPAdapter
    (mount "https://" HTTPAdapter {| sid := n; adapters := [] |}).

(** [Session.get_adapter]: the first mounted prefix that the URL starts
    with, compared in lower case. *)
Definition get_adapter (url : string) (s : Session) : option Adapter :=
  match List.find (fun kv => startswith (lower url) (lower (fst kv)))
                  (adapters s) with
  | Some (_, a) => Some a
  | None => None
  end.

(* ------------------------------------------------------------------ *)
(** ** Arrays *)

(** A numpy dtype: its descriptor string and whether it contains Python
    objects ([dtype.hasobject]). *)
Record Dtype := mkDtype { descr : string; hasobject : bool }.

Definition Dtype_eqb (a b : Dtype) : bool :=
  String.eqb (descr a) (descr b) && Bool.eqb (hasobject a) (hasobject b).

Definition Shape := list Z.

Fixpoint Shape_eqb (a b : Shape) : bool :=
  match a, b with
  | [], [] => true
  | x :: a', y :: b' => Z.eqb x y && Shape_eqb a' b'
  | _, _ => false
  end.

(** An N-dimensional array: shape, dtype and the element buffer. *)
Record ndarray := mkArray {
  shape : Shape;
  dtype : Dtype;
  buffer : list byte
}.

(** A Python [slice(start, stop)], one per array axis. *)
Record Slice := mkSlice { start : Z; stop : Z }.

(* ------------------------------------------------------------------ *)
(** ** The state and the monad of store operations *)

Record World := mkWorld {
  _pool : list Session;        (** [_Pool._pool], the idle sessions *)
  next_sid : nat;              (** number of sessions constructed so far *)
  log : list Transmission;     (** what reached the wire, oldest first *)
  warnings : list string;      (** [warnings.warn] messages, oldest first *)
  backend : Backend
}.

Definition set_pool (p : list Session) (w : World) : World :=
  {| _pool := p; next_sid := next_sid w; log := log w;
     warnings := warnings w; backend := backend w |}.

Definition set_next_sid (n : nat) (w : World) : World :=
  {| _pool := _pool w; next_sid := n; log := log w;
     warnings := warnings w; backend := backend w |}.

Definition add_log (t : Transmission) (w : World) : World :=
  {| _pool := _pool w; next_sid := next_sid w; log := log w ++ [t];
     warnings := warnings w; backend := backend w |}.

Definition add_warning (m : string) (w : World) : World :=
  {| _pool := _pool w; next_sid := next_sid w; log := log w;
     warnings := warnings w ++ [m]; backend := backend w |}.

(** A computation either raises or returns, and leaves a new state. *)
Definition M (A : Type) := World -> (Exc + A) * World.

Definition ret {A} (a : A) : M A := fun w => (inr a, w).

Definition raise {A} (e : Exc) : M A := fun w => (inl e, w).

Definition bind {A B} (m : M A) (k : A -> M B) : M B :=
  fun w =>
    match m w with
    | (inl e, w') => (inl e, w')
    | (inr a, w') => k a w'
    end.

(** A pure library call that may raise. *)
Definition lift {A} (r : Exc + A) : M A := fun w => (r, w).

Declare Scope py_scope.
Delimit Scope py_scope with py.
Notation "x <- m ;; k" := (bind m (fun x => k))
  (at level 100, m at next level, right associativity) : py_scope.
Notation "m ;;; k" := (bind m (fun _ => k))
  (at level 100, right associativity) : py_scope.
Local Open Scope py_scope.

(** [warnings.warn(msg)] *)
Definition warn (msg : string) : M unit :=
  fun w => (inr tt, add_warning msg w).

(* ------------------------------------------------------------------ *)
(** ** Library functions called by the module *)

(** The pure library functions the module calls, and the two helpers of
    the [ChunkStore] base class that it inherits ([chunk_metadata] and
    [split], defined in [katdal/chunkstore.py]). *)
Class Libs := {
  (** [urlparse.urljoin(base, url)] *)
  urljoin : string -> string -> string;
  (** [urllib.quote(s)] *)
  quote : string -> string;
  (** ['{}'.format(urlparse.urlparse(url).hostname)] *)
  hostname : string -> string;
  (** [base64.b64encode(hashlib.md5(data).digest())] *)
  md5_b64 : list byte -> string;
  (** [np.lib.format.write_array(fp, array, allow_pickle=...)]: the bytes
      written to [fp] *)
  write_array : bool -> ndarray -> Exc + list byte;
  (** [np.lib.format.read_array(fp, allow_pickle=...)] *)
  read_array : bool -> list byte -> Exc + ndarray;
  (** [defusedxml.cElementTree.fromstring(text)] *)
  fromstring : list byte -> Exc + Element;
  (** [str(error)] of the [HTTPError] that [raise_for_status] raises for a
      URL and status *)
  http_error_str : string -> Z -> string;
  (** the message of [BadChunk] in [get_chunk]:
      chunk name, stored array, expected dtype and shape *)
  bad_chunk_str : string -> ndarray -> Dtype -> Shape -> string;
  (** the message that [_standard_errors] gives a mapped exception *)
  standard_str : option string -> string -> string;
  (** [ChunkStore.chunk_metadata(array_name, slices, chunk=, dtype=)] *)
  chunk_metadata :
    string -> list Slice -> option ndarray -> option Dtype ->
    Exc + (string * Shape);
  (** [ChunkStore.split(array_name, n)] *)
  split : string -> nat -> Exc + (string * string)
}.

(* ------------------------------------------------------------------ *)
(** ** Sending a request (requests and urllib3, modelled from the
    libraries) *)

(** [HTTPAdapter.send] with [max_retries] an integer, that is with
    urllib3's [Retry.from_int]: one budget of [retries] repetitions for
    the request.  Every attempt reaches the wire.  GET, PUT and HEAD are
    all among the methods urllib3 repeats.  An attempt without a
    response is repeated while the budget lasts and raises when it is
    used up.  A completed exchange with status 413, 429 or 503 and a
    [Retry-After] header is repeated while the budget lasts and is
    returned as it is when it is used up.  Every other completed
    exchange is returned as it is, whatever its status. *)
Fixpoint urlopen (retries : nat) (tx : Transmission) (w : World)
  : (Exc + Response) * World :=
  let w' := add_log tx w in
  match backend w (log w) tx with
  | Reply r => (inr r, w')
  | ReplyRetryAfter r =>
      if retry_after_status (status_code r) then
        match retries with
        | 0 => (inr r, w')
        | S n => urlopen n tx w'
        end
      else (inr r, w')
  | ConnFail msg =>
      match retries with
      | 0 => (inl (mkExc ConnectionError msg), w')
      | S n => urlopen n tx w'
      end
  end.

(** [_TimeoutHTTPAdapter.send] *)
Definition send (a : Adapter) (request : Request) (timeout : option Q)
  : M Response :=
  let timeout :=
    match timeout with
    | None => _default_timeout a
    | Some t => Some t
    end in
  urlopen (max_retries a) {| tx_request := request; tx_timeout := timeout |}.

(** [Session.request]: look the adapter up by URL and send.  The module
    never passes a timeout of its own. *)
Definition session_request (s : Session) (request : Request) : M Response :=
  match get_adapter (req_url request) s with
  | None =>
      raise (mkExc InvalidSchema
               ("No connection adapters were found for " ++ req_url request))
  | Some a => send a request None
  end.

(** [Response.raise_for_status]: an [HTTPError] for 4xx and 5xx. *)
Definition raise_for_status `{Libs} (url : string) (response : Response)
  : Exc + unit :=
  if ((400 <=? status_code response) && (status_code response <? 600))%Z
  then inl (mkExc HTTPError (http_error_str url (status_code response)))
  else inr tt.

(* ------------------------------------------------------------------ *)
(** ** [chunkstore_s3.py] *)

(** [_raise_for_status(response)]; [url] is the URL the response came
    from, which the library puts into the error text. *)
Definition _raise_for_status `{Libs} (url : string) (response : Response)
  : M unit :=
  match raise_for_status url response with
  | inr tt => ret tt
  | inl error =>
      if isinstance error HTTPError then
        if (status_code response =? 404)%Z
        then raise (mkExc ChunkNotFound (exc_msg error))
        else raise (mkExc StoreUnavailable (exc_msg error))
      else raise error
  end.

(** *** [_Pool] *)

(** The pool of a store; its list of idle items is the [_pool] of the
    state, and its factory is passed to the methods that use it. *)
Module _Pool.

(** [_Pool.get]: with the lock held, call the factory if the pool is
    empty, else pop the last idle item. *)
Definition get (factory : M Session) : M Session :=
  fun w =>
    match list_pop (_pool w) with
    | None => factory w
    | Some (item, rest) => (inr item, set_pool rest w)
    end.

(** [_Pool.put]: with the lock held, append the item. *)
Definition put (item : Session) : M unit :=
  fun w => (inr tt, set_pool (_pool w ++ [item]) w).

(** [_Pool.__call__], a generator turned into a context manager by
    [contextlib.contextmanager]: the code before [yield] runs on entry;
    when the body of the [with] ends normally the generator is resumed
    and runs [self.put(item)]; when the body raises, the exception is
    thrown into the generator at the [yield], which is not inside a
    [try], so the generator ends there and the exception goes on. *)
Definition __call__ {A} (factory : M Session) (body : Session -> M A)
  : M A :=
  item <- get factory ;;
  fun w =>
    match body item w with
    | (inr a, w') => (_ <- put item ;; ret a) w'
    | (inl e, w') => (inl e, w')
    end.

End _Pool.

Section Store.
Context `{Libs}.

(** *** [S3ChunkStore] *)

Record S3ChunkStore := mkStore {
  _error_map : list (ExcClass * ExcClass);
  _session_factory : M Session;
  _url : string
}.

(** Modelled from the spec: [ChunkStore._standard_errors], the scope of
    section 4.2 (defined in [katdal/chunkstore.py]).  An exception raised
    inside the scope is looked up in the ordered error map and raised as
    the kind of the first entry whose source type it is an instance of;
    an exception without an entry goes on as it is. *)
Definition _standard_errors {A} (error_map : list (ExcClass * ExcClass))
  (chunk_name : option string) (body : M A) : M A :=
  fun w =>
    match body w with
    | (inr a, w') => (inr a, w')
    | (inl e, w') =>
        match List.find (fun entry => isinstance e (fst entry)) error_map with
        | Some (_, kind) =>
            (inl (mkExc kind (standard_str chunk_name (exc_msg e))), w')
        | None => (inl e, w')
        end
    end.

(** [except requests.exceptions.RequestException as error:
       raise StoreUnavailable(str(error))] *)
Definition probe_errors {A} (body : M A) : M A :=
  fun w =>
    match body w with
    | (inr a, w') => (inr a, w')
    | (inl error, w') =>
        if isinstance error RequestException
        then (inl (mkExc StoreUnavailable (exc_msg error)), w')
        else (inl error, w')
    end.

Definition get_request (url : string) : Request :=
  {| req_method := GET; req_url := url; req_params := [];
     req_headers := []; req_data := None; req_stream := false |}.

(** The attributes that [__init__] sets after the probe. *)
Definition new_store (session_factory : M Session) (url : string)
  : S3ChunkStore :=
  {| _error_map := [(RequestException, StoreUnavailable);
                    (ParseError, StoreUnavailable)];
     _session_factory := session_factory;
     _url := url |}.

(** [S3ChunkStore.__init__(session_factory, url)].  Leaving the two
    [with] blocks closes the response and the probe session; neither is
    used again.  The pool of the new store starts empty. *)
Definition S3ChunkStore__init__ (session_factory : M Session) (url : string)
  : M S3ChunkStore :=
  _ <- probe_errors (
         session <- session_factory ;;
         response <- session_request session (get_request url) ;;
         _raise_for_status url response) ;;
  fun w => (inr (new_store session_factory url), set_pool [] w).

(** The [session_factory] closure of [_from_url]: a new session with a
    [_TimeoutHTTPAdapter(max_retries=2, timeout=timeout)] mounted on the
    store URL. *)
Definition session_factory (url : string) (timeout : option Q) : M Session :=
  fun w =>
    let session := requests_Session (next_sid w) in
    let adapter := _TimeoutHTTPAdapter 2 timeout in
    (inr (mount url adapter session), set_next_sid (S (next_sid w)) w).

(** [S3ChunkStore._from_url(url, timeout)].  The module imports requests
    unconditionally, so [if not requests] never holds. *)
Definition _from_url (url : string) (timeout : option Q) : M S3ChunkStore :=
  S3ChunkStore__init__ (session_factory url timeout) url.

(** *** [from_url]: construction under a deadline *)

(** When the worker thread puts its result on the queue, measured in
    seconds from the start of the wait. *)
Inductive Worker :=
| Never
| FinishesAfter (t : Q).

Inductive Waited (A : Type) :=
| Got (item : A)
| Empty
| BadTimeout
| Blocked.
Arguments Got {A} item.
Arguments Empty {A}.
Arguments BadTimeout {A}.
Arguments Blocked {A}.

(** [Queue.get(timeout=timeout)] for a queue that receives [item] when
    the worker finishes: without a timeout it blocks until the item is
    there; a negative timeout is refused with [ValueError]; otherwise
    [Queue.Empty] is raised if the item is not there in time. *)
Definition queue_get {A} (timeout : option Q) (worker : Worker) (item : A)
  : Waited A :=
  match timeout with
  | None =>
      match worker with
      | Never => Blocked
      | FinishesAfter _ => Got item
      end
  | Some d =>
      if Qle_bool 0 d then
        match worker with
        | Never => Empty
        | FinishesAfter t => if Qle_bool t d then Got item else Empty
        end
      else BadTimeout
  end.

Definition stall_message (url : string) : string :=
  "Timed out, possibly due to DNS lookup of " ++ hostname url ++ " stalling".

(** [S3ChunkStore.from_url(url, timeout, extra_timeout)].  The worker
    runs [_from_url] and puts the store, or the caught exception, on the
    queue.  [None] stands for a call that never returns. *)
Definition from_url (url : string) (timeout : option Q) (extra_timeout : Q)
  (worker : Worker) (w : World) : option (Exc + S3ChunkStore * World) :=
  let result :=
    match _from_url url timeout w with
    | (inr store, w') => inr (store, w')
    | (inl exc_info, _) => inl exc_info
    end in
  let timeout :=
    match timeout with
    | None => None
    | Some t => Some (t + extra_timeout)%Q
    end in
  match queue_get timeout worker result with
  | Blocked => None
  | BadTimeout =>
      Some (inl (mkExc ValueError "'timeout' must be a non-negative number"))
  | Empty => Some (inl (mkExc StoreUnavailable (stall_message url)))
  | Got (inr store) => Some (inr store)
  | Got (inl exc_info) => Some (inl exc_info)
  end.

(** *** Chunk operations *)

(** [S3ChunkStore._chunk_url] *)
Definition _chunk_url (self : S3ChunkStore) (chunk_name : string) : string :=
  urljoin (_url self) (quote (chunk_name ++ ".npy")).

(** [S3ChunkStore._request], a generator-based context manager.  The
    [yield] sits inside all three [with] blocks, so the body of the
    caller's [with] runs inside the error scope, inside the pool scope
    and before the response is closed. *)
Definition _request {A} (self : S3ChunkStore) (chunk_name : option string)
  (request : Request) (body : Response -> M A) : M A :=
  _standard_errors (_error_map self) chunk_name
    (_Pool.__call__ (_session_factory self) (fun session =>
       response <- session_request session request ;;
       _ <- _raise_for_status (req_url request) response ;;
       body response)).

(** [S3ChunkStore.get_chunk]; [response.raw] is the body as sent. *)
Definition get_chunk (self : S3ChunkStore) (array_name : string)
  (slices : list Slice) (dtype' : Dtype) : M ndarray :=
  meta <- lift (chunk_metadata array_name slices None (Some dtype')) ;;
  let (chunk_name, shape') := meta : string * Shape in
  let url := _chunk_url self chunk_name in
  chunk <- _request self (Some chunk_name)
             {| req_method := GET; req_url := url; req_params := [];
                req_headers := []; req_data := None; req_stream := true |}
             (fun response => lift (read_array false (content response))) ;;
  if negb (Shape_eqb (shape chunk) shape') ||
     negb (Dtype_eqb (dtype chunk) dtype')
  then raise (mkExc BadChunk (bad_chunk_str chunk_name chunk dtype' shape'))
  else ret chunk.

(** [S3ChunkStore.put_chunk] *)
Definition put_chunk (self : S3ChunkStore) (array_name : string)
  (slices : list Slice) (chunk : ndarray) : M unit :=
  meta <- lift (chunk_metadata array_name slices (Some chunk) None) ;;
  let chunk_name := fst (meta : string * Shape) in
  let url := _chunk_url self chunk_name in
  fp <- lift (write_array false chunk) ;;
  let md5 := md5_b64 fp in
  let headers := [("Content-MD5", md5)] in
  _request self (Some chunk_name)
    {| req_method := PUT; req_url := url; req_params := [];
       req_headers := headers; req_data := Some fp; req_stream := false |}
    (fun _ => ret tt).

(** [S3ChunkStore.has_chunk] *)
Definition has_chunk (self : S3ChunkStore) (array_name : string)
  (slices : list Slice) (dtype' : Dtype) : M bool :=
  meta <- lift (chunk_metadata array_name slices None (Some dtype')) ;;
  let chunk_name := fst (meta : string * Shape) in
  let url := _chunk_url self chunk_name in
  fun w =>
    match _request self (Some chunk_name)
            {| req_method := HEAD; req_url := url; req_params := [];
               req_headers := []; req_data := None; req_stream := false |}
            (fun _ => ret tt) w with
    | (inr _, w') => (inr true, w')
    | (inl e, w') =>
        if isinstance e ChunkNotFound then (inr false, w') else (inl e, w')
    end.

(** *** Listing *)

Definition list_max_keys : Z := 100000.

Definition NS : string := "{http://s3.amazonaws.com/doc/2006-03-01/}".

(** What the loop of [list_chunk_ids] decides after a page. *)
Inductive Next :=
| NextPage (params : Dict PyVal)
| GiveUp (warning : string)
| Done.

(** The end of the loop body: [keys] already holds the keys of the page
    [root]. *)
Definition next_page (root : Element) (params : Dict PyVal)
  (keys : list PyStr) : Next :=
  let truncated := find (NS ++ "IsTruncated") root in
  let more :=
    match truncated with
    | None => false
    | Some t =>
        match text t with
        | Some s => String.eqb s "true"
        | None => false
        end
    end in
  if more then
    let next_marker := find (NS ++ "NextMarker") root in
    match next_marker, truth next_marker with
    | Some m, true =>
        NextPage (dict_set "marker" (pyval_of_text (text m)) params)
    | _, _ =>
        match list_last keys with
        | Some key => NextPage (dict_set "marker" (pyval_of_text key) params)
        | None => GiveUp "Result had no keys but was marked as truncated"
        end
    end
  else Done.

Definition listing_request (url : string) (params : Dict PyVal) : Request :=
  {| req_method := GET; req_url := url; req_params := params;
     req_headers := []; req_data := None; req_stream := false |}.

(** The [while more:] loop.  It has no bound of its own; [fuel] bounds
    the number of pages and [None] means the bound was reached. *)
Fixpoint list_pages (fuel : nat) (self : S3ChunkStore) (url : string)
  (params : Dict PyVal) (keys : list PyStr) (w : World)
  : option ((Exc + list PyStr) * World) :=
  match fuel with
  | 0 => None
  | S fuel' =>
      match _request self None (listing_request url params)
              (fun response => lift (fromstring (content response))) w with
      | (inl e, w') => Some (inl e, w')
      | (inr root, w') =>
          let keys := keys ++ map text (iter (NS ++ "Key") root) in
          match next_page root params keys with
          | NextPage params' => list_pages fuel' self url params' keys w'
          | GiveUp msg => Some (inr keys, add_warning msg w')
          | Done => Some (inr keys, w')
          end
      end
  end.

(** [[key[len(prefix) + 1:-4] for key in keys if key.endswith('.npy')]];
    a key that is [None] has no [endswith]. *)
Fixpoint chunk_ids (prefix : string) (keys : list PyStr)
  : Exc + list string :=
  match keys with
  | [] => inr []
  | None :: _ =>
      inl (mkExc AttributeError
             "'NoneType' object has no attribute 'endswith'")
  | Some key :: rest =>
      match chunk_ids prefix rest with
      | inl e => inl e
      | inr ids =>
          if endswith key ".npy"
          then inr (slice_to_neg (String.length prefix + 1) 4 key :: ids)
          else inr ids
      end
  end.

(** [S3ChunkStore.list_chunk_ids] *)
Definition list_chunk_ids (fuel : nat) (self : S3ChunkStore)
  (array_name : string) (w : World)
  : option ((Exc + list string) * World) :=
  match split array_name 1 with
  | inl e => Some (inl e, w)
  | inr (bucket, prefix) =>
      let url := urljoin (_url self) (quote bucket) in
      let params := [("prefix", PStr prefix);
                     ("max-keys", PInt list_max_keys)] in
      match list_pages fuel self url params [] w with
      | None => None
      | Some (inl e, w') => Some (inl e, w')
      | Some (inr keys, w') => Some (chunk_ids prefix keys, w')
      end
  end.

End Store.

(* ------------------------------------------------------------------ *)
(** ** Backends and a small instance of the library functions *)

(** An object store: a PUT is accepted, a GET or HEAD of a URL is answered
    from the latest PUT to that URL, or with 404 if there was none. *)
Definition stored (url : string) (history : list Transmission)
  : option (list byte) :=
  match List.find (fun t =>
           Method_eqb (req_method (tx_request t)) PUT &&
           String.eqb (req_url (tx_request t)) url) (rev history) with
  | Some t => Some (match req_data (tx_request t) with
                    | Some body => body
                    | None => []
                    end)
  | None => None
  end.

Definition object_store : Backend :=
  fun history tx =>
    match req_method (tx_request tx) with
    | PUT => Reply {| status_code := 200; content := [] |}
    | GET =>
        match stored (req_url (tx_request tx)) history with
        | Some body => Reply {| status_code := 200; content := body |}
        | None => Reply {| status_code := 404; content := [] |}
        end
    | HEAD =>
        match stored (req_url (tx_request tx)) history with
        | Some _ => Reply {| status_code := 200; content := [] |}
        | None => Reply {| status_code := 404; content := [] |}
        end
    end.

(** A backend that plays a script: the attempt made when [n] attempts
    are on the wire already gets the [n]-th outcome; after the script the
    connection fails. *)
Definition scripted (script : list Attempt) : Backend :=
  fun history _ => nth (List.length history) script (ConnFail "refused").

Definition ok (body : list byte) : Attempt :=
  Reply {| status_code := 200; content := body |}.

(** A world with an empty pool and nothing on the wire. *)
Definition fresh (b : Backend) : World :=
  {| _pool := []; next_sid := 0; log := []; warnings := []; backend := b |}.

(** The request that [get_chunk] makes for a chunk. *)
Definition chunk_request `{Libs} (self : S3ChunkStore) (chunk_name : string)
  : M ndarray :=
  _request self (Some chunk_name)
    {| req_method := GET; req_url := _chunk_url self chunk_name;
       req_params := []; req_headers := []; req_data := None;
       req_stream := true |}
    (fun response => lift (read_array false (content response))).

(** A listing document as the object store sends it: the truncation flag
    and one [Contents] entry per key. *)
Definition listing (keys : list string) (truncated : bool) : Element :=
  Elem (NS ++ "ListBucketResult") None
    (Elem (NS ++ "IsTruncated")
          (Some (if truncated then "true" else "false")) [] ::
     map (fun k => Elem (NS ++ "Contents") None
                     [Elem (NS ++ "Key") (Some k) []]) keys).

(** The same with a [NextMarker] element, which holds text only. *)
Definition listing_with_marker (keys : list string) (marker : string)
  : Element :=
  Elem (NS ++ "ListBucketResult") None
    (Elem (NS ++ "IsTruncated") (Some "true") [] ::
     Elem (NS ++ "NextMarker") (Some marker) [] ::
     map (fun k => Elem (NS ++ "Contents") None
                     [Elem (NS ++ "Key") (Some k) []]) keys).

(** The key under which the chunk with index string [idx] of the array
    with path [prefix] is stored. *)
Definition key_of (prefix idx : string) : string :=
  prefix ++ "/" ++ idx ++ ".npy".

(** [b] plays [script] from the moment [base] attempts are on the wire. *)
Definition plays (b : Backend) (base : nat) (script : list Attempt) : Prop :=
  forall i history t,
    i < List.length script ->
    List.length history = base + i ->
    b history t = nth i script (ConnFail "refused").

(** The URL has one of the two schemes every session has an adapter
    for. *)
Definition http_url (url : string) : bool :=
  startswith (lower url) "http://" || startswith (lower url) "https://".

(** The session still has the two adapters it was constructed with. *)
Definition session_ok (s : Session) : Prop :=
  In "http://" (map fst (adapters s)) /\ In "https://" (map fst (adapters s)).

(** The number of attempts a computation puts on the wire. *)
Definition transmissions {A} (m : M A) (w : World) : nat :=
  List.length (log (snd (m w))) - List.length (log w).

(** *** Uses of the pool *)

(** A call on the pool: [get()], or [put(item)] with the item that the
    [n]-th [get()] returned. *)
Inductive PoolCall :=
| Acquire
| Release (n : nat).

Fixpoint remove_first (n : nat) (l : list nat) : list nat :=
  match l with
  | [] => []
  | x :: r => if Nat.eqb n x then r else x :: remove_first n r
  end.

(** Every [Release] names an acquisition that was made and is still
    outstanding ([count] acquisitions so far, those in [live] not yet
    released). *)
Fixpoint well_formed_from (count : nat) (live : list nat)
  (calls : list PoolCall) : bool :=
  match calls with
  | [] => true
  | Acquire :: rest => well_formed_from (S count) (count :: live) rest
  | Release n :: rest =>
      existsb (Nat.eqb n) live &&
      well_formed_from count (remove_first n live) rest
  end.

Definition well_formed (calls : list PoolCall) : bool :=
  well_formed_from 0 [] calls.

(** Bookkeeping of a run: the items handed out, in order; the
    acquisitions not yet released; the largest number of them so far. *)
Record Usage := mkUsage {
  acquired : list Session;
  outstanding : list nat;
  peak : nat
}.

Definition no_usage : Usage :=
  {| acquired := []; outstanding := []; peak := 0 |}.

Fixpoint run_calls (factory : M Session) (calls : list PoolCall)
  (u : Usage) (w : World) : option (Usage * World) :=
  match calls with
  | [] => Some (u, w)
  | Acquire :: rest =>
      match _Pool.get factory w with
      | (inr item, w') =>
          let live := List.length (acquired u) :: outstanding u in
          run_calls factory rest
            {| acquired := acquired u ++ [item];
               outstanding := live;
               peak := Nat.max (peak u) (List.length live) |} w'
      | (inl _, _) => None
      end
  | Release n :: rest =>
      match nth_error (acquired u) n with
      | Some item =>
          run_calls factory rest
            {| acquired := acquired u;
               outstanding := remove_first n (outstanding u);
               peak := peak u |}
            (snd (_Pool.put item w))
      | None => None
      end
  end.

(** A small, computable instance of [Libs], used to run the module on
    concrete inputs.  URLs are joined with a slash and quoting changes
    nothing; an array file is the dtype descriptor and the shape, each
    number in unary, followed by the buffer, and an array of Python
    objects is refused unless pickling is allowed; a response body of
    [n] bytes parses as the [n]-th document of [docs]. *)
Module Fixture.

Definition unary (n : nat) : list byte := repeat x01 n ++ [x00].

Fixpoint read_unary (bs : list byte) : option (nat * list byte) :=
  match bs with
  | [] => None
  | b :: rest =>
      if Byte.eqb b x00 then Some (0, rest)
      else match read_unary rest with
           | Some (n, rest') => Some (S n, rest')
           | None => None
           end
  end.

Fixpoint read_dims (n : nat) (bs : list byte) : option (Shape * list byte) :=
  match n with
  | 0 => Some ([], bs)
  | S n' =>
      match read_unary bs with
      | None => None
      | Some (d, rest) =>
          match read_dims n' rest with
          | None => None
          | Some (ds, rest') => Some (Z.of_nat d :: ds, rest')
          end
      end
  end.

Definition npy_write (allow_pickle : bool) (a : ndarray)
  : Exc + list byte :=
  if hasobject (dtype a) && negb allow_pickle
  then inl (mkExc ValueError
              "Object arrays cannot be saved when allow_pickle=False")
  else inr (unary (String.length (descr (dtype a))) ++
            list_byte_of_string (descr (dtype a)) ++
            unary (List.length (shape a)) ++
            flat_map (fun d => unary (Z.to_nat d)) (shape a) ++
            buffer a).

Definition npy_read (allow_pickle : bool) (bs : list byte)
  : Exc + ndarray :=
  let bad := inl (mkExc ValueError "not an array file") in
  match read_unary bs with
  | None => bad
  | Some (n, rest) =>
      let d := string_of_list_byte (firstn n rest) in
      match read_unary (skipn n rest) with
      | None => bad
      | Some (k, rest') =>
          match read_dims k rest' with
          | None => bad
          | Some (ds, data) =>
              inr {| shape := ds;
                     dtype := {| descr := d; hasobject := false |};
                     buffer := data |}
          end
      end
  end.

Definition doc_of_body (docs : list Element) (body : list byte)
  : Exc + Element :=
  match nth_error docs (List.length body) with
  | Some root => inr root
  | None => inl (mkExc ParseError "syntax error")
  end.

Definition index_string (slices : list Slice) : string :=
  String.concat "_"
    (map (fun s => NilZero.string_of_int (Z.to_int (start s))) slices).

(** Modelled from the spec: [ChunkStore.chunk_metadata] of
    [katdal/chunkstore.py].  The chunk name is the array name and the
    index string, the shape is the extent of each index range; a chunk
    whose shape is not that shape, a chunk that holds Python objects and
    a requested dtype that holds Python objects are refused with
    [BadChunk]. *)
Definition metadata (array_name : string) (slices : list Slice)
  (chunk : option ndarray) (dt : option Dtype) : Exc + (string * Shape) :=
  let shape' := map (fun s => (stop s - start s)%Z) slices in
  let chunk_name := (array_name ++ "/" ++ index_string slices)%string in
  let refuse msg :=
    inl (mkExc BadChunk ("Chunk " ++ chunk_name ++ ": " ++ msg)%string) in
  match chunk with
  | Some c =>
      if negb (Shape_eqb (shape c) shape')
      then refuse "shape implied by slices does not match actual shape"
      else if hasobject (dtype c)
      then refuse "actual dtype cannot contain objects"
      else match dt with
           | Some d =>
               if hasobject d
               then refuse "requested dtype cannot contain objects"
               else inr (chunk_name, shape')
           | None => inr (chunk_name, shape')
           end
  | None =>
      match dt with
      | Some d =>
          if hasobject d
          then refuse "requested dtype cannot contain objects"
          else inr (chunk_name, shape')
      | None => inr (chunk_name, shape')
      end
  end.

Definition split_name (array_name : string) (n : nat) : Exc + (string * string) :=
  match index 0 "/" array_name with
  | Some i =>
      inr (substring 0 i array_name,
           substring (i + 1) (String.length array_name - i - 1) array_name)
  | None => inl (mkExc (OtherError "InvalidChunk") array_name)
  end.

Definition libs (docs : list Element) : Libs :=
  {| urljoin := fun base url => (base ++ "/" ++ url)%string;
     quote := fun s => s;
     hostname := fun url => url;
     md5_b64 := fun _ => "md5";
     write_array := npy_write;
     read_array := npy_read;
     fromstring := doc_of_body docs;
     http_error_str := fun url status =>
       ((if (status =? 404)%Z then "404 Client Error" else "Error") ++
        " for url: " ++ url)%string;
     bad_chunk_str := fun name _ _ _ => ("Chunk " ++ name ++ ": bad")%string;
     standard_str := fun _ msg => msg;
     chunk_metadata := metadata;
     split := split_name |}.

(** A store at [http://s3] with a ten-second timeout, a 2x1 array and
    the index ranges of the chunk it fills. *)
Definition url : string := "http://s3".

Definition store : S3ChunkStore :=
  new_store (session_factory url (Some 10%Q)) url.

Definition array : ndarray :=
  {| shape := [2%Z; 1%Z];
     dtype := {| descr := "<f4"; hasobject := false |};
     buffer := [x01; x02; x03; x04; x05; x06; x07; x08] |}.

Definition slices : list Slice := [mkSlice 0 2; mkSlice 4 5].

(** The same buffer as an array of Python objects. *)
Definition object_array : ndarray :=
  {| shape := [2%Z; 1%Z];
     dtype := {| descr := "|O"; hasobject := true |};
     buffer := buffer array |}.

End Fixture.

(** The worker has put its result on the queue by [deadline]. *)
Definition finished_by (worker : Worker) (deadline : Q) : Prop :=
  match worker with
  | Never => False
  | FinishesAfter t => (t <= deadline)%Q
  end.

(** A backend that answers every attempt with the same response. *)
Definition always (r : Response) : Backend := fun _ _ => Reply r.

Definition not_found : Response := {| status_code := 404; content := [] |}.

(** The methods of the attempts on the wire, oldest first. *)
Definition methods_sent (w : World) : list Method :=
  map (fun t => req_method (tx_request t)) (log w).

(** The [marker] parameter of each attempt on the wire, oldest first. *)
Definition markers_sent (w : World) : list (option PyVal) :=
  map (fun t => dict_get "marker" (req_params (tx_request t))) (log w).

(** Two listing pages: the first is truncated and names a next marker
    that differs from its last key. *)
Definition marker_pages : list Element :=
  [listing_with_marker ["arr/0001.npy"; "arr/0002.npy"] "arr/0009.npy";
   listing ["arr/0003.npy"] false].

(** A listing of five chunks of the array with path [arr] in three
    pages, and a one-page listing that also holds a key that is not a
    chunk. *)
Definition three_pages : list Element :=
  [listing (map (key_of "arr") ["0001"; "0002"]) true;
   listing (map (key_of "arr") ["0003"]) true;
   listing (map (key_of "arr") ["0004"; "0005"]) false].

Definition mixed_page : list Element :=
  [listing ["arr/0001.npy"; "arr/notes.txt"; "arr/0002.npy"] false].

Definition server_error : Response := {| status_code := 500; content := [] |}.

(** The same state in front of another backend. *)
Definition with_backend (b : Backend) (w : World) : World :=
  {| _pool := _pool w; next_sid := next_sid w; log := log w;
     warnings := warnings w; backend := b |}.

Definition empty_ok : Response := {| status_code := 200; content := [] |}.

(** The exception that [_standard_errors] of a store made by
    [__init__] raises in place of [e]. *)
Definition standardised `{Libs} (chunk_name : option string) (e : Exc) : Exc :=
  if isinstance e RequestException || isinstance e ParseError
  then mkExc StoreUnavailable (standard_str chunk_name (exc_msg e))
  else e.

(** A second instance of the library functions, in which
    [chunk_metadata] refuses a range that is empty or reversed. *)
Module Checked.

Definition metadata (array_name : string) (slices : list Slice)
  (chunk : option ndarray) (dt : option Dtype) : Exc + (string * Shape) :=
  if forallb (fun s => (start s <? stop s)%Z) slices
  then Fixture.metadata array_name slices chunk dt
  else inl (mkExc (OtherError "InvalidChunk") "empty range").

Definition libs (docs : list Element) : Libs :=
  {| urljoin := fun base url => (base ++ "/" ++ url)%string;
     quote := fun s => s;
     hostname := fun url => url;
     md5_b64 := fun _ => "md5";
     write_array := Fixture.npy_write;
     read_array := Fixture.npy_read;
     fromstring := Fixture.doc_of_body docs;
     http_error_str := fun url status =>
       ((if (status =? 404)%Z then "404 Client Error" else "Error") ++
        " for url: " ++ url)%string;
     bad_chunk_str := fun name _ _ _ => ("Chunk " ++ name ++ ": bad")%string;
     standard_str := fun _ msg => msg;
     chunk_metadata := metadata;
     split := Fixture.split_name |}.

End Checked.

(** The requests of the chunk operations for the chunk stored at [u]. *)
Definition GET_of (u : string) : Request :=
  {| req_method := GET; req_url := u; req_params := [];
     req_headers := []; req_data := None; req_stream := true |}.

Definition HEAD_of (u : string) : Request :=
  {| req_method := HEAD; req_url := u; req_params := [];
     req_headers := []; req_data := None; req_stream := false |}.

Definition PUT_of `{Libs} (u : string) (fp : list byte) : Request :=
  {| req_method := PUT; req_url := u; req_params := [];
     req_headers := [("Content-MD5", md5_b64 fp)];
     req_data := Some fp; req_stream := false |}.

(** What [get_chunk] makes of the array it has decoded. *)
Definition checked `{Libs} (chunk_name : string) (shp : Shape) (dt : Dtype)
  (chunk : ndarray) : Exc + ndarray :=
  if negb (Shape_eqb (shape chunk) shp) || negb (Dtype_eqb (dtype chunk) dt)
  then inl (mkExc BadChunk (bad_chunk_str chunk_name chunk dt shp))
  else inr chunk.

(** The parameters of the requests that follow the first one of a
    listing, when the truncated pages hold the keys [pages] and [acc]
    was retrieved before: the first parameters with the last key
    retrieved so far as [marker]. *)
Fixpoint later_params (params0 : Dict PyVal) (acc : list PyStr)
  (pages : list (list string)) : list (Dict PyVal) :=
  match pages with
  | [] => []
  | page :: rest =>
      let acc' := acc ++ map Some page in
      match list_last acc' with
      | Some key =>
          dict_set "marker" (pyval_of_text key) params0 ::
          later_params params0 acc' rest
      | None => []
      end
  end.

(** The parameters of the first request of a listing. *)
Definition first_params (prefix : string) : Dict PyVal :=
  [("prefix", PStr prefix); ("max-keys", PInt list_max_keys)].

(** A listing page with one entry whose key element holds no text. *)
Definition page_with_empty_key : Element :=
  Elem (NS ++ "ListBucketResult") None
    [Elem (NS ++ "Contents") None [Elem (NS ++ "Key") None []]].

(** The outcomes of an attempt that urllib3 repeats while the budget
    lasts. *)
Definition repeated (a : Attempt) : bool :=
  match a with
  | ConnFail _ => true
  | Reply _ => false
  | ReplyRetryAfter r => retry_after_status (status_code r)
  end.




(* ================================================================== *)
(** * Properties *)

Unset Implicit Arguments.

(** ** Lists, strings and equality tests *)

Lemma list_pop_nil {A} : list_pop (@nil A) = None.
Proof. reflexivity. Qed.

Lemma list_pop_app {A} (l : list A) (x : A) :
  list_pop (l ++ [x]) = Some (x, l).
Proof.
  unfold list_pop. rewrite rev_app_distr. simpl.
  now rewrite rev_involutive.
Qed.

Lemma list_pop_none {A} (l : list A) : list_pop l = None -> l = [].
Proof.
  destruct l as [|a l] using rev_ind; [reflexivity|].
  rewrite list_pop_app. discriminate.
Qed.

Lemma list_pop_some {A} (l r : list A) (x : A) :
  list_pop l = Some (x, r) -> l = r ++ [x].
Proof.
  destruct l as [|a l _] using rev_ind.
  - discriminate.
  - rewrite list_pop_app. now intros [= -> ->].
Qed.

Lemma list_last_app {A} (l : list A) (x : A) :
  list_last (l ++ [x]) = Some x.
Proof. unfold list_last. now rewrite rev_app_distr. Qed.

Lemma list_last_nonempty {A} (l : list A) :
  l <> [] -> exists x, list_last l = Some x.
Proof.
  destruct l as [|a l _] using rev_ind; [congruence|].
  intros _. exists a. apply list_last_app.
Qed.

Lemma length_append (s t : string) :
  String.length (s ++ t) = String.length s + String.length t.
Proof. induction s as [|c s IH]; simpl; [reflexivity | now rewrite IH]. Qed.

Lemma substring_skip (s t : string) (m : nat) :
  substring (String.length s) m (s ++ t) = substring 0 m t.
Proof. induction s as [|c s IH]; simpl; [reflexivity | exact IH]. Qed.

Lemma substring_take (s t : string) :
  substring 0 (String.length s) (s ++ t) = s.
Proof.
  induction s as [|c s IH]; simpl.
  - now destruct t.
  - now rewrite IH.
Qed.

Lemma append_assoc (s t u : string) : ((s ++ t) ++ u = s ++ (t ++ u))%string.
Proof. induction s as [|c s IH]; simpl; [reflexivity | now rewrite IH]. Qed.

Lemma append_nil_r (s : string) : (s ++ "" = s)%string.
Proof. induction s as [|c s IH]; simpl; [reflexivity | now rewrite IH]. Qed.

Lemma endswith_append (s suffix : string) : endswith (s ++ suffix) suffix = true.
Proof.
  unfold endswith. rewrite length_append.
  apply andb_true_intro; split.
  - apply Nat.leb_le. lia.
  - replace (String.length s + String.length suffix - String.length suffix)
      with (String.length s) by lia.
    rewrite substring_skip.
    rewrite <- (append_nil_r suffix) at 2.
    rewrite substring_take. apply String.eqb_refl.
Qed.

(** Slicing a stored key gives back the index string. *)
Lemma slice_key_of (prefix idx : string) :
  slice_to_neg (String.length prefix + 1) 4 (key_of prefix idx) = idx.
Proof.
  unfold slice_to_neg, key_of.
  rewrite !length_append. simpl String.length.
  replace (String.length prefix + (1 + (String.length idx + 4)) - 4 -
           (String.length prefix + 1)) with (String.length idx) by lia.
  replace (prefix ++ "/" ++ idx ++ ".npy")%string
    with ((prefix ++ "/") ++ idx ++ ".npy")%string
    by (now rewrite append_assoc).
  replace (String.length prefix + 1) with (String.length (prefix ++ "/"))
    by (rewrite length_append; reflexivity).
  rewrite substring_skip. apply substring_take.
Qed.

Lemma endswith_key_of (prefix idx : string) :
  endswith (key_of prefix idx) ".npy" = true.
Proof.
  unfold key_of.
  replace (prefix ++ "/" ++ idx ++ ".npy")%string
    with ((prefix ++ "/" ++ idx) ++ ".npy")%string
    by (now rewrite !append_assoc).
  apply endswith_append.
Qed.

Lemma Shape_eqb_eq (a b : Shape) : Shape_eqb a b = true <-> a = b.
Proof.
  revert b; induction a as [|x a IH]; intros [|y b]; simpl;
    try (split; [discriminate | congruence]); [tauto|].
  rewrite andb_true_iff, Z.eqb_eq, IH. split.
  - now intros [-> ->].
  - now intros [= -> ->].
Qed.

Lemma Dtype_eqb_eq (a b : Dtype) : Dtype_eqb a b = true <-> a = b.
Proof.
  destruct a as [d1 o1], b as [d2 o2]; unfold Dtype_eqb; simpl.
  rewrite andb_true_iff, String.eqb_eq, Bool.eqb_true_iff. split.
  - now intros [-> ->].
  - now intros [= -> ->].
Qed.

(** ** The session pool *)

Lemma remove_first_length (n : nat) (l : list nat) :
  existsb (Nat.eqb n) l = true ->
  S (List.length (remove_first n l)) = List.length l.
Proof.
  induction l as [|x l IH]; simpl; [discriminate|].
  destruct (Nat.eqb n x); simpl; [reflexivity|].
  intros E. now rewrite IH.
Qed.

(** [_Pool.get] with an idle item returns the last one put back and calls
    no factory. *)
Lemma pool_get_idle (factory : M Session) (idle : list Session)
  (item : Session) (w : World) :
  _pool w = idle ++ [item] ->
  _Pool.get factory w = (inr item, set_pool idle w).
Proof. intros E. unfold _Pool.get. now rewrite E, list_pop_app. Qed.

(** [_Pool.get] on an empty pool is a call of the factory. *)
Lemma pool_get_empty (factory : M Session) (w : World) :
  _pool w = [] -> _Pool.get factory w = factory w.
Proof. intros E. unfold _Pool.get. now rewrite E. Qed.

(** The invariant of a run: every session ever constructed is idle or
    outstanding, and the peak equals the number constructed. *)
Lemma run_calls_invariant (url : string) (timeout : option Q)
  (calls : list PoolCall) :
  forall (u : Usage) (w : World) (base : nat),
    well_formed_from (List.length (acquired u)) (outstanding u) calls = true ->
    (forall n, In n (outstanding u) -> n < List.length (acquired u)) ->
    List.length (_pool w) + List.length (outstanding u) = next_sid w - base ->
    base <= next_sid w ->
    peak u = next_sid w - base ->
    exists u' w',
      run_calls (session_factory url timeout) calls u w = Some (u', w') /\
      base <= next_sid w' /\
      peak u' = next_sid w' - base.
Proof.
  induction calls as [|c calls IH]; intros u w base WF B INV LE PK.
  - exists u, w. simpl. auto.
  - destruct c as [|n]; simpl in *.
    + unfold _Pool.get.
      destruct (list_pop (_pool w)) as [[item rest]|] eqn:P.
      * apply list_pop_some in P.
        apply IH; simpl.
        -- now rewrite length_app, Nat.add_comm.
        -- intros k [<-|K]; rewrite length_app; simpl; [lia|].
           apply B in K. lia.
        -- rewrite P, length_app in INV. simpl in INV. lia.
        -- exact LE.
        -- rewrite P, length_app in INV. simpl in INV. lia.
      * apply list_pop_none in P. unfold session_factory.
        rewrite P in INV. cbn [List.length] in INV.
        apply IH;
          cbn [acquired outstanding peak _pool next_sid set_next_sid
               List.length].
        -- now rewrite length_app, Nat.add_comm.
        -- intros k [<-|K]; rewrite length_app; simpl; [lia|].
           apply B in K. lia.
        -- rewrite P. cbn [List.length]. lia.
        -- lia.
        -- lia.
    + apply andb_true_iff in WF as [E WF].
      assert (n < List.length (acquired u)) as N.
      { apply B. apply existsb_exists in E as (k & K & EQ).
        apply Nat.eqb_eq in EQ. now subst. }
      destruct (nth_error (acquired u) n) as [item|] eqn:NTH.
      2:{ apply nth_error_None in NTH. lia. }
      apply IH; simpl; auto.
      * intros k K. apply B.
        clear - K. induction (outstanding u) as [|x l IHl]; simpl in *; auto.
        destruct (Nat.eqb n x); [now right|].
        destruct K as [<-|K]; auto.
      * apply remove_first_length in E. rewrite length_app. simpl. lia.
Qed.

(** C9. [_Pool.get] returns the last idle item when there is one and
    otherwise the result of a factory call, and it is a total function
    of the pool state (it never waits).  Hence for every sequence of
    [get]/[put] calls on a pool that starts empty, in which every [put]
    returns an item still outstanding, the number of sessions constructed
    equals the largest number of acquisitions that were outstanding at
    the same time. *)
Theorem pool_creates_peak (url : string) (timeout : option Q)
  (calls : list PoolCall) (w : World) :
  well_formed calls = true ->
  _pool w = [] ->
  (forall factory idle item w0,
      _pool w0 = idle ++ [item] ->
      _Pool.get factory w0 = (inr item, set_pool idle w0)) /\
  (forall factory w0, _pool w0 = [] -> _Pool.get factory w0 = factory w0) /\
  exists u w',
    run_calls (session_factory url timeout) calls no_usage w = Some (u, w') /\
    next_sid w' - next_sid w = peak u.
Proof.
  intros WF E. split; [|split].
  - intros. now apply pool_get_idle.
  - intros. now apply pool_get_empty.
  - destruct (run_calls_invariant url timeout calls no_usage w (next_sid w))
      as (u & w' & R & _ & PK); simpl; auto.
    + intros n [].
    + rewrite E. simpl. lia.
    + lia.
    + exists u, w'. auto.
Qed.

Lemma pool_creates_peak_witness :
  exists u w',
    run_calls (session_factory "http://s3" (Some 10%Q))
      [Acquire; Acquire; Release 0; Acquire; Release 1; Release 2; Acquire]
      no_usage (fresh object_store) = Some (u, w') /\
    next_sid w' - next_sid (fresh object_store) = peak u.
Proof.
  apply (pool_creates_peak "http://s3" (Some 10%Q)
           [Acquire; Acquire; Release 0; Acquire; Release 1; Release 2; Acquire]
           (fresh object_store)); reflexivity.
Defined.

(** ** [get_chunk]: the shape and dtype check *)

(** C4. When the GET of [get_chunk] succeeds and the body decodes to an
    array [chunk], then [get_chunk] returns [chunk] if its shape and dtype
    equal the shape from [chunk_metadata] and the requested dtype, it
    raises [BadChunk] if they do not, and whatever it returns is [chunk]
    with exactly that shape and dtype. *)
Theorem get_chunk_checks_shape_and_dtype `{Libs} (self : S3ChunkStore)
  (array_name : string) (slices : list Slice) (dt : Dtype)
  (chunk_name : string) (shp : Shape) (chunk : ndarray) (w : World) :
  chunk_metadata array_name slices None (Some dt) = inr (chunk_name, shp) ->
  fst (chunk_request self chunk_name w) = inr chunk ->
  let w1 := snd (chunk_request self chunk_name w) in
  (shape chunk = shp /\ dtype chunk = dt ->
   get_chunk self array_name slices dt w = (inr chunk, w1)) /\
  (~ (shape chunk = shp /\ dtype chunk = dt) ->
   get_chunk self array_name slices dt w =
     (inl (mkExc BadChunk (bad_chunk_str chunk_name chunk dt shp)), w1)) /\
  (forall a, fst (get_chunk self array_name slices dt w) = inr a ->
             a = chunk /\ shape a = shp /\ dtype a = dt).
Proof.
  intros META REQ w1.
  assert (get_chunk self array_name slices dt w =
          if negb (Shape_eqb (shape chunk) shp) ||
             negb (Dtype_eqb (dtype chunk) dt)
          then (inl (mkExc BadChunk (bad_chunk_str chunk_name chunk dt shp)),
                w1)
          else (inr chunk, w1)) as G.
  { unfold get_chunk, bind, lift. rewrite META.
    unfold chunk_request in REQ, w1.
    destruct (_request self (Some chunk_name) _ _ w) as [[e|c] w'];
      simpl in REQ; [discriminate|].
    injection REQ as ->. simpl.
    now destruct (negb (Shape_eqb (shape chunk) shp) ||
                  negb (Dtype_eqb (dtype chunk) dt)). }
  destruct (Shape_eqb (shape chunk) shp) eqn:S1;
    destruct (Dtype_eqb (dtype chunk) dt) eqn:D1; simpl in G;
    rewrite G; simpl.
  - apply Shape_eqb_eq in S1. apply Dtype_eqb_eq in D1.
    split; [reflexivity | split].
    + intros N. now destruct N.
    + intros a [= <-]. auto.
  - assert (dtype chunk <> dt) by
      (intros E; apply Dtype_eqb_eq in E; congruence).
    split; [tauto | split; [reflexivity | discriminate]].
  - assert (shape chunk <> shp) by
      (intros E; apply Shape_eqb_eq in E; congruence).
    split; [tauto | split; [reflexivity | discriminate]].
  - assert (shape chunk <> shp) by
      (intros E; apply Shape_eqb_eq in E; congruence).
    split; [tauto | split; [reflexivity | discriminate]].
Qed.

Lemma get_chunk_checks_shape_and_dtype_witness :
  let L := Fixture.libs [] in
  let w := snd (put_chunk (H := L) Fixture.store "b/arr" Fixture.slices
                  Fixture.array (fresh object_store)) in
  fst (get_chunk (H := L) Fixture.store "b/arr" Fixture.slices
         (dtype Fixture.array) w) = inr Fixture.array /\
  fst (get_chunk (H := L) Fixture.store "b/arr" Fixture.slices
         {| descr := "<f8"; hasobject := false |} w) =
    inl (mkExc BadChunk "Chunk b/arr/0_4: bad").
Proof.
  intros L w.
  assert (forall d, chunk_metadata (Libs := L) "b/arr" Fixture.slices None
                      (Some {| descr := d; hasobject := false |}) =
                    inr ("b/arr/0_4", [2%Z; 1%Z])) as META
    by (intros d; vm_compute; reflexivity).
  assert (fst (chunk_request (H := L) Fixture.store "b/arr/0_4" w) =
          inr Fixture.array) as REQ by (vm_compute; reflexivity).
  split.
  - destruct (get_chunk_checks_shape_and_dtype (H := L) Fixture.store "b/arr"
                Fixture.slices (dtype Fixture.array) "b/arr/0_4"
                [2%Z; 1%Z] Fixture.array w (META _) REQ) as [P _].
    now rewrite (P (conj eq_refl eq_refl)).
  - destruct (get_chunk_checks_shape_and_dtype (H := L) Fixture.store "b/arr"
                Fixture.slices {| descr := "<f8"; hasobject := false |}
                "b/arr/0_4" [2%Z; 1%Z] Fixture.array w (META _) REQ)
      as [_ [P _]].
    rewrite P; [reflexivity|].
    intros [_ E]. discriminate E.
Defined.

(** ** [from_url]: the deadline *)

(** C6 (as the code has it).  For a finite timeout, let the deadline be
    [timeout + extra_timeout].  When the deadline is not negative: if the
    worker has not delivered by the deadline, [from_url] raises
    [StoreUnavailable] with the message about a stalling DNS lookup; if
    the worker has delivered in time and construction failed there with
    [e], [from_url] raises [e] itself, class and message unchanged; and
    the two outcomes differ exactly when [e] is not itself
    [StoreUnavailable] with the stall message.  When the deadline is
    negative, [Queue.get] refuses it and [from_url] raises [ValueError],
    whatever the worker does. *)
Theorem from_url_deadline `{Libs} (url : string) (timeout extra_timeout : Q)
  (worker : Worker) (w : World) :
  let stalled :=
    mkExc StoreUnavailable
      ("Timed out, possibly due to DNS lookup of " ++
       hostname url ++ " stalling") in
  ((0 <= timeout + extra_timeout)%Q ->
   (~ finished_by worker (timeout + extra_timeout) ->
    from_url url (Some timeout) extra_timeout worker w =
      Some (inl stalled)) /\
   (finished_by worker (timeout + extra_timeout) ->
    forall e w', _from_url url (Some timeout) w = (inl e, w') ->
      from_url url (Some timeout) extra_timeout worker w = Some (inl e) /\
      (forall late, ~ finished_by late (timeout + extra_timeout) ->
         (from_url url (Some timeout) extra_timeout late w <>
          from_url url (Some timeout) extra_timeout worker w <->
          e <> stalled)))) /\
  ((timeout + extra_timeout < 0)%Q ->
   from_url url (Some timeout) extra_timeout worker w =
     Some (inl (mkExc ValueError "'timeout' must be a non-negative number"))).
Proof.
  intros stalled.
  assert (forall late, (0 <= timeout + extra_timeout)%Q ->
            ~ finished_by late (timeout + extra_timeout) ->
            from_url url (Some timeout) extra_timeout late w =
              Some (inl stalled)) as LATE.
  { intros late NN L. apply Qle_bool_iff in NN.
    unfold from_url, queue_get. rewrite NN.
    destruct late as [|t]; [reflexivity|].
    destruct (Qle_bool t (timeout + extra_timeout)) eqn:E; [|reflexivity].
    apply Qle_bool_iff in E. now elim L. }
  split.
  - intros NN. split; [now apply LATE|].
    intros INTIME e w' F.
    assert (from_url url (Some timeout) extra_timeout worker w =
            Some (inl e)) as R.
    { apply Qle_bool_iff in NN. unfold from_url, queue_get. rewrite NN.
      destruct worker as [|t]; [now elim INTIME|].
      simpl in INTIME. apply Qle_bool_iff in INTIME.
      now rewrite INTIME, F. }
    split; [exact R|].
    intros late L. rewrite R, (LATE late NN L). split.
    + intros D E. apply D. now rewrite E.
    + intros D E. apply D. now injection E.
  - intros NEG. unfold from_url, queue_get.
    destruct (Qle_bool 0 (timeout + extra_timeout)) eqn:E; [|reflexivity].
    apply Qle_bool_iff in E. now apply Qlt_not_le in NEG.
Qed.

Lemma from_url_deadline_witness :
  let L := Fixture.libs [] in
  from_url (H := L) "http://s3" (Some 10%Q) 1 Never (fresh object_store) =
    Some (inl (mkExc StoreUnavailable
                 "Timed out, possibly due to DNS lookup of http://s3 stalling"))
  /\
  from_url (H := L) "http://s3" (Some 10%Q) 1 (FinishesAfter 3)
    (fresh (scripted [])) =
    Some (inl (mkExc StoreUnavailable "refused")) /\
  from_url (H := L) "http://s3" (Some 10%Q) (-11) (FinishesAfter 3)
    (fresh (scripted [])) =
    Some (inl (mkExc ValueError "'timeout' must be a non-negative number")).
Proof.
  intros L. split; [|split].
  - apply (proj1 (proj1 (from_url_deadline (H := L) "http://s3" 10 1 Never
                           (fresh object_store)) ltac:(discriminate))).
    intros F. exact F.
  - apply (proj2 (proj1 (from_url_deadline (H := L) "http://s3" 10 1
                           (FinishesAfter 3) (fresh (scripted [])))
                    ltac:(discriminate))
             ltac:(discriminate) _
             (snd (_from_url (H := L) "http://s3" (Some 10%Q)
                     (fresh (scripted []))))).
    vm_compute. reflexivity.
  - apply (proj2 (from_url_deadline (H := L) "http://s3" 10 (-11)
                    (FinishesAfter 3) (fresh (scripted [])))).
    reflexivity.
Defined.

(** C6 (as stated) fails when the deadline is negative: with a timeout
    of one second and an extra timeout of minus two, the worker has not
    delivered within the deadline, yet [from_url] raises [ValueError]
    from [Queue.get], which [except Queue.Empty] does not catch, and not
    [StoreUnavailable]. *)
Lemma from_url_negative_deadline :
  let L := Fixture.libs [] in
  from_url (H := L) "http://s3" (Some 1%Q) (-2) Never (fresh object_store) =
    Some (inl (mkExc ValueError "'timeout' must be a non-negative number")).
Proof. vm_compute. reflexivity. Qed.

(** ** Sending: retries *)

Lemma add_log_length (t : Transmission) (w : World) :
  List.length (log (add_log t w)) = S (List.length (log w)).
Proof. simpl. rewrite length_app. simpl. lia. Qed.

Lemma urlopen_reply (n : nat) (tx : Transmission) (w : World) (r : Response) :
  backend w (log w) tx = Reply r ->
  urlopen n tx w = (inr r, add_log tx w).
Proof. intros E. destruct n; simpl; now rewrite E. Qed.

Lemma urlopen_retry (n : nat) (tx : Transmission) (w : World) (msg : string) :
  backend w (log w) tx = ConnFail msg ->
  urlopen (S n) tx w = urlopen n tx (add_log tx w).
Proof. intros E. simpl. now rewrite E. Qed.

(** An adapter with budget [n] puts at least one and at most [n + 1]
    attempts on the wire. *)
Lemma urlopen_attempts (n : nat) (tx : Transmission) :
  forall w,
    List.length (log w) < List.length (log (snd (urlopen n tx w))) /\
    List.length (log (snd (urlopen n tx w))) <= List.length (log w) + S n.
Proof.
  induction n as [|n IH]; intros w; simpl.
  - destruct (backend w (log w) tx) as [msg|r|r];
      try destruct (retry_after_status (status_code r));
      simpl; rewrite length_app; simpl; lia.
  - pose proof (add_log_length tx w) as ONE.
    destruct (IH (add_log tx w)) as [LO HI].
    destruct (backend w (log w) tx) as [msg|r|r];
      try destruct (retry_after_status (status_code r));
      cbn [snd]; lia.
Qed.

Lemma dict_set_Forall {V} (P : string * V -> Prop) (k : string) (v : V)
  (d : Dict V) :
  Forall P d -> P (k, v) -> Forall P (dict_set k v d).
Proof.
  intros F PK. induction F as [|[k' v'] d PX F IH]; simpl.
  - auto.
  - destruct (String.eqb k' k); auto.
Qed.

Lemma Forall_filter {A} (P : A -> Prop) (f : A -> bool) (l : list A) :
  Forall P l -> Forall P (filter f l).
Proof.
  intros F. apply Forall_forall. intros x IN.
  apply filter_In in IN as [IN _].
  revert x IN. now apply Forall_forall.
Qed.

(** No adapter of a session made by [session_factory] retries more than
    twice. *)
Lemma mounted_adapters_bound (url : string) (timeout : option Q) (n : nat) :
  Forall (fun kv : string * Adapter => max_retries (snd kv) <= 2)
    (adapters (mount url (_TimeoutHTTPAdapter 2 timeout) (requests_Session n))).
Proof.
  unfold mount at 1. cbn [adapters].
  apply Forall_app; split; apply Forall_filter;
    (apply dict_set_Forall; [|simpl; lia]);
    (repeat constructor; simpl; lia).
Qed.

Lemma get_adapter_In (u : string) (s : Session) (a : Adapter) :
  get_adapter u s = Some a -> exists k, In (k, a) (adapters s).
Proof.
  unfold get_adapter.
  destruct (List.find _ (adapters s)) as [[k a']|] eqn:F; [|discriminate].
  intros [= <-]. exists k. now apply find_some in F.
Qed.

Lemma string_eqb_length (a b : string) :
  String.length a <> String.length b -> String.eqb a b = false.
Proof. intros N. apply String.eqb_neq. congruence. Qed.

(** When the store URL is longer than the scheme prefixes, every URL
    under it is served by the mounted adapter. *)
Lemma get_adapter_mounted (url : string) (timeout : option Q) (n : nat)
  (u : string) :
  String.length "https://" < String.length url ->
  startswith (lower u) (lower url) = true ->
  get_adapter u (mount url (_TimeoutHTTPAdapter 2 timeout)
                   (requests_Session n)) =
    Some (_TimeoutHTTPAdapter 2 timeout).
Proof.
  intros LEN PRE. simpl in LEN.
  unfold get_adapter, mount.
  change (adapters (requests_Session n))
    with [("https://", HTTPAdapter); ("http://", HTTPAdapter)].
  cbn [dict_set adapters].
  rewrite !string_eqb_length by (simpl; lia).
  cbn [filter fst String.length].
  replace (8 <? String.length url) with true
    by (symmetry; apply Nat.ltb_lt; lia).
  replace (7 <? String.length url) with true
    by (symmetry; apply Nat.ltb_lt; lia).
  rewrite Nat.ltb_irrefl. cbn [negb app List.find fst].
  now rewrite PRE.
Qed.

Lemma urlopen_again (n : nat) (tx : Transmission) (w : World) :
  repeated (backend w (log w) tx) = true ->
  urlopen (S n) tx w = urlopen n tx (add_log tx w).
Proof.
  intros R. simpl. destruct (backend w (log w) tx) as [msg|r|r].
  - reflexivity.
  - discriminate.
  - simpl in R. now rewrite R.
Qed.

Lemma urlopen_returned (n : nat) (tx : Transmission) (w : World)
  (r : Response) :
  backend w (log w) tx = ReplyRetryAfter r ->
  retry_after_status (status_code r) = false ->
  urlopen n tx w = (inr r, add_log tx w).
Proof. intros E S. destruct n; simpl; now rewrite E, S. Qed.

(** C8 (as the code has it).  A session made by [session_factory] puts
    at most three attempts on the wire for one request, whatever the
    method.  An attempt is repeated, when the adapter has a budget and
    whatever the method, if no response arrived or if the exchange
    completed with status 413, 429 or 503 and a [Retry-After] header;
    every other completed exchange is returned after that one attempt,
    whatever its status.  When the store URL is longer than the scheme
    prefixes, every request to a URL under it, PUT as well as GET and
    HEAD, has the budget of two. *)
Theorem retries_capped_for_every_method (url : string) (timeout : option Q)
  (n : nat) (request : Request) (w : World) :
  let s := mount url (_TimeoutHTTPAdapter 2 timeout) (requests_Session n) in
  transmissions (session_request s request) w <= 3 /\
  (forall a,
      get_adapter (req_url request) s = Some a ->
      0 < max_retries a ->
      repeated (backend w (log w)
                  (mkTransmission request (_default_timeout a))) = true ->
      2 <= transmissions (session_request s request) w) /\
  (forall a r,
      get_adapter (req_url request) s = Some a ->
      backend w (log w) (mkTransmission request (_default_timeout a)) =
        Reply r \/
      backend w (log w) (mkTransmission request (_default_timeout a)) =
        ReplyRetryAfter r /\ retry_after_status (status_code r) = false ->
      session_request s request w =
        (inr r, add_log (mkTransmission request (_default_timeout a)) w)) /\
  (String.length "https://" < String.length url ->
   startswith (lower (req_url request)) (lower url) = true ->
   get_adapter (req_url request) s = Some (_TimeoutHTTPAdapter 2 timeout)).
Proof.
  intros s. unfold transmissions, session_request. repeat split.
  - destruct (get_adapter (req_url request) s) as [a|] eqn:G.
    + apply get_adapter_In in G as [k IN].
      pose proof (mounted_adapters_bound url timeout n) as B.
      rewrite Forall_forall in B. apply B in IN. simpl in IN.
      unfold send.
      destruct (urlopen_attempts (max_retries a)
                  (mkTransmission request (_default_timeout a)) w) as [_ HI].
      lia.
    + simpl. lia.
  - intros a G POS F. rewrite G. unfold send.
    destruct (max_retries a) as [|k]; [lia|].
    rewrite (urlopen_again k _ w F).
    destruct (urlopen_attempts k (mkTransmission request (_default_timeout a))
                (add_log (mkTransmission request (_default_timeout a)) w))
      as [LO _].
    rewrite add_log_length in LO. lia.
  - intros a r G [R|[R S]]; rewrite G; unfold send.
    + now apply urlopen_reply.
    + now apply urlopen_returned.
  - intros LEN PRE. now apply get_adapter_mounted.
Qed.

(** C8 (as stated) fails: a PUT whose first attempt cannot connect is
    sent a second time. *)
Lemma put_is_retried :
  let L := Fixture.libs [] in
  let r := put_chunk (H := L) Fixture.store "b/arr" Fixture.slices
             Fixture.array (fresh (scripted [ConnFail "reset"; ok []])) in
  fst r = inr tt /\ methods_sent (snd r) = [PUT; PUT].
Proof. vm_compute. split; reflexivity. Qed.

(** ** The pool scope *)

(** When the body of the [with] returns, the item is put back. *)
Lemma pool_call_returns {A} (factory : M Session) (body : Session -> M A)
  (w w1 w2 : World) (item : Session) (a : A) :
  _Pool.get factory w = (inr item, w1) ->
  body item w1 = (inr a, w2) ->
  _Pool.__call__ factory body w = (inr a, set_pool (_pool w2 ++ [item]) w2).
Proof.
  intros G B. unfold _Pool.__call__, bind. now rewrite G, B.
Qed.

(** When the body of the [with] raises, the item is not put back: the
    state is the one the body left. *)
Lemma pool_call_raises {A} (factory : M Session) (body : Session -> M A)
  (w w1 w2 : World) (item : Session) (e : Exc) :
  _Pool.get factory w = (inr item, w1) ->
  body item w1 = (inl e, w2) ->
  _Pool.__call__ factory body w = (inl e, w2).
Proof.
  intros G B. unfold _Pool.__call__, bind. now rewrite G, B.
Qed.

(** C1 (what the code does).  On a store whose pool holds the session
    of an earlier [put_chunk], each of the four operations takes that
    session and, when its request block raises, leaves the pool empty:
    [has_chunk] and [get_chunk] of a chunk that is not there (status
    404), [put_chunk] answered with status 500, and [list_chunk_ids]
    whose response body does not parse (the body of the [with] raises
    while the session is held).  On a fresh store the session made for
    the failing request is not put into the pool either. *)
Theorem session_lost_when_request_fails :
  let L := Fixture.libs [] in
  let dt := dtype Fixture.array in
  let w := snd (put_chunk (H := L) Fixture.store "b/arr" Fixture.slices
                  Fixture.array (fresh object_store)) in
  let failing := with_backend (always server_error) w in
  let garbled := with_backend (always empty_ok) w in
  let r_has := has_chunk (H := L) Fixture.store "b/other" Fixture.slices dt w in
  let r_get := get_chunk (H := L) Fixture.store "b/other" Fixture.slices dt w in
  let r_put := put_chunk (H := L) Fixture.store "b/arr" Fixture.slices
                 Fixture.array failing in
  let r_list := list_chunk_ids (H := L) 1 Fixture.store "b/arr" garbled in
  let r_new := has_chunk (H := L) Fixture.store "b/arr" Fixture.slices dt
                 (fresh object_store) in
  map sid (_pool w) = [0] /\
  (fst r_has = inr false /\ _pool (snd r_has) = []) /\
  (fst r_get = inl (mkExc ChunkNotFound
                      "404 Client Error for url: http://s3/b/other/0_4.npy") /\
   _pool (snd r_get) = []) /\
  (fst r_put = inl (mkExc StoreUnavailable
                      "Error for url: http://s3/b/arr/0_4.npy") /\
   _pool (snd r_put) = []) /\
  match r_list with
  | Some (r, w') =>
      r = inl (mkExc StoreUnavailable "syntax error") /\ _pool w' = []
  | None => False
  end /\
  (fst r_new = inr false /\ next_sid (snd r_new) = 1 /\
   _pool (snd r_new) = []).
Proof. vm_compute. repeat split; reflexivity. Qed.

(** ** Construction: the probe *)

(** A probe that is answered with status 404 ends construction with
    [ChunkNotFound], for every session factory and URL. *)
Lemma init_404 `{Libs} (factory : M Session) (url : string)
  (w w1 w2 : World) (s : Session) (r : Response) :
  factory w = (inr s, w1) ->
  session_request s (get_request url) w1 = (inr r, w2) ->
  status_code r = 404%Z ->
  S3ChunkStore__init__ factory url w =
    (inl (mkExc ChunkNotFound (http_error_str url 404)), w2).
Proof.
  intros F R ST.
  unfold S3ChunkStore__init__, bind, probe_errors.
  rewrite F, R. unfold _raise_for_status, raise_for_status.
  now rewrite ST.
Qed.

(** Any other error status ends construction with [StoreUnavailable]. *)
Lemma init_error_status `{Libs} (factory : M Session) (url : string)
  (w w1 w2 : World) (s : Session) (r : Response) :
  factory w = (inr s, w1) ->
  session_request s (get_request url) w1 = (inr r, w2) ->
  (400 <= status_code r < 600)%Z ->
  status_code r <> 404%Z ->
  S3ChunkStore__init__ factory url w =
    (inl (mkExc StoreUnavailable (http_error_str url (status_code r))), w2).
Proof.
  intros F R [LO HI] ST.
  unfold S3ChunkStore__init__, bind, probe_errors.
  rewrite F, R. unfold _raise_for_status, raise_for_status.
  apply Z.leb_le in LO. apply Z.ltb_lt in HI. rewrite LO, HI.
  apply Z.eqb_neq in ST. cbn [andb isinstance exc_class issubclass].
  cbn [ExcClass_eqb orb exc_msg]. now rewrite ST.
Qed.

(** A request that raises a [RequestException] ends construction with
    [StoreUnavailable]. *)
Lemma init_request_error `{Libs} (factory : M Session) (url : string)
  (w w1 w2 : World) (s : Session) (e : Exc) :
  factory w = (inr s, w1) ->
  session_request s (get_request url) w1 = (inl e, w2) ->
  isinstance e RequestException = true ->
  S3ChunkStore__init__ factory url w =
    (inl (mkExc StoreUnavailable (exc_msg e)), w2).
Proof.
  intros F R E.
  unfold S3ChunkStore__init__, bind, probe_errors.
  now rewrite F, R, E.
Qed.

(** A probe answered with a status below 400 gives the store, with an
    empty pool. *)
Lemma init_ok `{Libs} (factory : M Session) (url : string)
  (w w1 w2 : World) (s : Session) (r : Response) :
  factory w = (inr s, w1) ->
  session_request s (get_request url) w1 = (inr r, w2) ->
  (status_code r < 400)%Z ->
  S3ChunkStore__init__ factory url w =
    (inr (new_store factory url), set_pool [] w2).
Proof.
  intros F R ST.
  unfold S3ChunkStore__init__, bind, probe_errors.
  rewrite F, R. unfold _raise_for_status, raise_for_status.
  replace (400 <=? status_code r)%Z with false
    by (symmetry; apply Z.leb_gt; lia).
  reflexivity.
Qed.

(** C3 (what the code does).  The probe of a store at an endpoint that
    answers 404: construction raises [ChunkNotFound], and so does
    [from_url] when the worker delivers in time. *)
Theorem probe_404_raises_ChunkNotFound :
  let L := Fixture.libs [] in
  let w := fresh (always not_found) in
  fst (_from_url (H := L) "http://s3" (Some 10%Q) w) =
    inl (mkExc ChunkNotFound "404 Client Error for url: http://s3") /\
  from_url (H := L) "http://s3" (Some 10%Q) 1 (FinishesAfter 2) w =
    Some (inl (mkExc ChunkNotFound "404 Client Error for url: http://s3")).
Proof. vm_compute. split; reflexivity. Qed.

(** ** Listing: the next marker *)

(** A [NextMarker] element that holds text only is not used: the marker
    of the next request is the last key retrieved. *)
Lemma next_page_text_marker (keys : list string) (marker : string)
  (params : Dict PyVal) (acc : list PyStr) (key : PyStr) :
  list_last acc = Some key ->
  next_page (listing_with_marker keys marker) params acc =
    NextPage (dict_set "marker" (pyval_of_text key) params).
Proof.
  intros LAST. unfold next_page, listing_with_marker, find.
  cbn [children List.find tag text].
  change (String.eqb (NS ++ "IsTruncated") (NS ++ "IsTruncated")) with true.
  change (String.eqb (NS ++ "IsTruncated") (NS ++ "NextMarker")) with false.
  change (String.eqb (NS ++ "NextMarker") (NS ++ "NextMarker")) with true.
  cbn. now rewrite LAST.
Qed.

(** C2 (what the code does).  A two-page listing whose first page is
    truncated and carries [NextMarker] "arr/0009.npy": the second
    request is sent with the last key of the first page as its marker. *)
Theorem next_marker_not_used :
  let L := Fixture.libs marker_pages in
  match list_chunk_ids (H := L) 2 Fixture.store "b/arr"
          (fresh (scripted [ok []; ok [x00]])) with
  | Some (r, w) =>
      r = inr ["0001"; "0002"; "0003"] /\
      markers_sent w = [None; Some (PStr "arr/0002.npy")]
  | None => False
  end.
Proof. vm_compute. split; reflexivity. Qed.
(** ** A request that the backend answers *)

Lemma In_partition {A} (f : A -> bool) (x : A) (l : list A) :
  In x l -> In x (filter (fun y => negb (f y)) l ++ filter f l).
Proof.
  intros IN. apply in_or_app.
  destruct (f x) eqn:E.
  - right. apply filter_In. auto.
  - left. apply filter_In. rewrite E. auto.
Qed.

Lemma dict_set_keeps_key {V} (k k' : string) (v : V) (d : Dict V) :
  In k (map fst d) -> In k (map fst (dict_set k' v d)).
Proof.
  induction d as [|[k0 v0] d IH]; simpl; [tauto|].
  intros [<-|IN].
  - destruct (String.eqb k0 k') eqn:E; simpl; auto.
    apply String.eqb_eq in E. auto.
  - destruct (String.eqb k0 k'); simpl; auto.
Qed.

Lemma mount_keeps_key (k prefix : string) (a : Adapter) (s : Session) :
  In k (map fst (adapters s)) -> In k (map fst (adapters (mount prefix a s))).
Proof.
  intros IN. apply (dict_set_keeps_key k prefix a) in IN.
  apply in_map_iff in IN as ([k0 v0] & <- & IN).
  unfold mount. cbn [adapters]. apply in_map.
  now apply (In_partition
               (fun kv : string * Adapter =>
                  String.length (fst kv) <? String.length prefix)).
Qed.

(** Sessions made by [session_factory] have an adapter for both
    schemes. *)
Lemma session_factory_ok (url : string) (timeout : option Q) (n : nat) :
  session_ok (mount url (_TimeoutHTTPAdapter 2 timeout) (requests_Session n)).
Proof.
  split; apply mount_keeps_key; simpl; auto.
Qed.

Lemma get_adapter_ok (u : string) (s : Session) :
  session_ok s -> http_url u = true -> exists a, get_adapter u s = Some a.
Proof.
  intros [HTTP HTTPS] U. unfold get_adapter.
  destruct (List.find _ (adapters s)) as [[k a]|] eqn:F; [now exists a|].
  exfalso. unfold http_url in U. apply orb_true_iff in U as [U|U].
  - apply in_map_iff in HTTP as ([k v] & E & IN). simpl in E. subst k.
    apply (find_none _ _ F) in IN. cbn [fst] in IN.
    change (lower "http://") with "http://" in IN. congruence.
  - apply in_map_iff in HTTPS as ([k v] & E & IN). simpl in E. subst k.
    apply (find_none _ _ F) in IN. cbn [fst] in IN.
    change (lower "https://") with "https://" in IN. congruence.
Qed.

(** Taking a session from the pool of a store made by [_from_url]. *)
Lemma pool_get_ok (url : string) (timeout : option Q) (w : World) :
  Forall session_ok (_pool w) ->
  exists item w1,
    _Pool.get (session_factory url timeout) w = (inr item, w1) /\
    session_ok item /\
    Forall session_ok (_pool w1) /\
    log w1 = log w /\ backend w1 = backend w /\ warnings w1 = warnings w.
Proof.
  intros OK. unfold _Pool.get.
  destruct (list_pop (_pool w)) as [[item rest]|] eqn:P.
  - apply list_pop_some in P. rewrite P in OK.
    apply Forall_app in OK as [REST ITEM].
    exists item, (set_pool rest w). cbn [set_pool _pool log backend warnings].
    inversion ITEM; subst. auto 10.
  - apply list_pop_none in P. unfold session_factory.
    eexists _, _. split; [reflexivity|].
    cbn [set_next_sid _pool log backend warnings]. rewrite P.
    pose proof (session_factory_ok url timeout (next_sid w)). auto 10.
Qed.

(** A request of a store made by [_from_url] that the backend answers
    with a status below 400, with a body that only inspects the
    response: the result is the body's, one attempt is on the wire, and
    the session is back in the pool. *)
Lemma request_replied `{Libs} {A} (url : string) (timeout : option Q)
  (chunk_name : option string) (request : Request)
  (f : Response -> Exc + A) (w : World) (r : Response) (a : A) :
  Forall session_ok (_pool w) ->
  http_url (req_url request) = true ->
  (forall t, tx_request t = request -> backend w (log w) t = Reply r) ->
  ((400 <=? status_code r) && (status_code r <? 600))%Z = false ->
  f r = inr a ->
  exists w' t,
    _request (new_store (session_factory url timeout) url) chunk_name request
      (fun response => lift (f response)) w = (inr a, w') /\
    tx_request t = request /\
    log w' = log w ++ [t] /\
    backend w' = backend w /\
    Forall session_ok (_pool w') /\
    warnings w' = warnings w.
Proof.
  intros OK U B ST F.
  destruct (pool_get_ok url timeout w OK)
    as (item & w1 & G & ITEM & OK1 & LOG1 & B1 & W1).
  destruct (get_adapter_ok (req_url request) item ITEM U) as [ad AD].
  set (t := mkTransmission request (_default_timeout ad)).
  exists (set_pool (_pool (add_log t w1) ++ [item]) (add_log t w1)), t.
  split.
  - unfold _request, _standard_errors. cbn [new_store _error_map _session_factory].
    erewrite pool_call_returns; [reflexivity | exact G |].
    unfold bind, session_request. rewrite AD. unfold send.
    rewrite (urlopen_reply _ t w1 r) by (rewrite B1, LOG1; now apply B).
    unfold _raise_for_status, raise_for_status. rewrite ST.
    unfold ret, lift. now rewrite F.
  - simpl. rewrite LOG1, B1, W1. repeat split; auto.
    apply Forall_app; split; auto.
Qed.

(** ** Writing a chunk and reading it back *)

Lemma stored_last_put (url : string) (history : list Transmission)
  (t : Transmission) (body : list byte) :
  req_method (tx_request t) = PUT ->
  req_url (tx_request t) = url ->
  req_data (tx_request t) = Some body ->
  stored url (history ++ [t]) = Some body.
Proof.
  intros ME U D. unfold stored. rewrite rev_app_distr.
  cbn [rev app List.find]. rewrite ME, U, String.eqb_refl.
  cbn [Method_eqb andb]. now rewrite D.
Qed.

Lemma Shape_eqb_refl (s : Shape) : Shape_eqb s s = true.
Proof. now apply Shape_eqb_eq. Qed.

Lemma Dtype_eqb_refl (d : Dtype) : Dtype_eqb d d = true.
Proof. now apply Dtype_eqb_eq. Qed.

(** C5 (as the code has it).  Let [A] be an array whose file, written
    without pickling, reads back as [A] (numpy does this for every array
    that holds no Python objects), and let the index ranges name the
    same chunk for writing and reading, with the shape of [A].  Then on a
    store made by [_from_url] over an object store, [put_chunk] returns
    and a following [get_chunk] with the dtype of [A] returns [A]
    itself: same shape, same dtype, same buffer. *)
Theorem put_get_roundtrip `{Libs} (url : string) (timeout : option Q)
  (array_name : string) (slices : list Slice) (A : ndarray)
  (chunk_name : string) (shp : Shape) (fp : list byte) (w : World) :
  chunk_metadata array_name slices (Some A) None = inr (chunk_name, shp) ->
  chunk_metadata array_name slices None (Some (dtype A)) =
    inr (chunk_name, shape A) ->
  write_array false A = inr fp ->
  read_array false fp = inr A ->
  http_url (urljoin url (quote (chunk_name ++ ".npy"))) = true ->
  backend w = object_store ->
  Forall session_ok (_pool w) ->
  let self := new_store (session_factory url timeout) url in
  exists w1 w2,
    put_chunk self array_name slices A w = (inr tt, w1) /\
    get_chunk self array_name slices (dtype A) w1 = (inr A, w2).
Proof.
  intros META1 META2 WR RD U BE OK self.
  set (u := urljoin url (quote (chunk_name ++ ".npy"))) in *.
  set (put := {| req_method := PUT; req_url := u; req_params := [];
                 req_headers := [("Content-MD5", md5_b64 fp)];
                 req_data := Some fp; req_stream := false |}).
  set (get := {| req_method := GET; req_url := u; req_params := [];
                 req_headers := []; req_data := None; req_stream := true |}).
  destruct (request_replied url timeout (Some chunk_name) put
              (fun _ => inr tt) w {| status_code := 200; content := [] |} tt)
    as (w1 & t & R1 & T1 & LOG1 & BE1 & OK1 & _); auto.
  { intros t0 E. rewrite BE. unfold object_store. now rewrite E. }
  destruct (request_replied url timeout (Some chunk_name) get
              (fun response => read_array false (content response)) w1
              {| status_code := 200; content := fp |} A)
    as (w2 & t2 & R2 & _); auto.
  { intros t0 E. rewrite BE1, BE, LOG1. unfold object_store.
    rewrite E. cbn [get req_method req_url].
    now rewrite (stored_last_put u (log w) t fp) by (now rewrite T1). }
  exists w1, w2. split.
  - unfold put_chunk, bind, lift. rewrite META1, WR. exact R1.
  - unfold get_chunk, bind, lift. rewrite META2.
    cbv beta in R2. unfold lift in R2.
    change (_chunk_url self chunk_name) with u. fold get.
    unfold self. rewrite R2.
    now rewrite Shape_eqb_refl, Dtype_eqb_refl.
Qed.

Lemma put_get_roundtrip_witness :
  let L := Fixture.libs [] in
  exists w1 w2,
    put_chunk (H := L) Fixture.store "b/arr" Fixture.slices Fixture.array
      (fresh object_store) = (inr tt, w1) /\
    get_chunk (H := L) Fixture.store "b/arr" Fixture.slices
      (dtype Fixture.array) w1 = (inr Fixture.array, w2).
Proof.
  intros L.
  apply (put_get_roundtrip (H := L) Fixture.url (Some 10%Q) "b/arr"
           Fixture.slices Fixture.array "b/arr/0_4" [2%Z; 1%Z]
           (Fixture.unary 3 ++ list_byte_of_string "<f4" ++ Fixture.unary 2 ++
            Fixture.unary 2 ++ Fixture.unary 1 ++ buffer Fixture.array)).
  - vm_compute; reflexivity.
  - vm_compute; reflexivity.
  - vm_compute; reflexivity.
  - vm_compute; reflexivity.
  - vm_compute; reflexivity.
  - reflexivity.
  - constructor.
Defined.

(** C5 (as stated) fails for an array of Python objects, which has a
    shape and a dtype like any other: [chunk_metadata] refuses it, so
    [put_chunk] raises [BadChunk] before the array file is written and
    nothing is sent; the following [get_chunk] with the dtype of the
    array is refused in the same way, again with nothing sent, and
    returns no array. *)
Lemma put_refuses_object_array :
  let L := Fixture.libs [] in
  let r := put_chunk (H := L) Fixture.store "b/arr" Fixture.slices
             Fixture.object_array (fresh object_store) in
  let g := get_chunk (H := L) Fixture.store "b/arr" Fixture.slices
             (dtype Fixture.object_array) (snd r) in
  shape Fixture.object_array = shape Fixture.array /\
  (exists msg, fst r = inl (mkExc BadChunk msg)) /\
  log (snd r) = [] /\
  (exists msg, fst g = inl (mkExc BadChunk msg)) /\
  log (snd g) = [].
Proof.
  vm_compute. split; [reflexivity|].
  split; [eexists; reflexivity|]. split; [reflexivity|].
  split; [eexists; reflexivity|reflexivity].
Qed.

(** ** Listing *)

Lemma iter_contents (keys : list string) :
  flat_map (iter (NS ++ "Key"))
    (map (fun k => Elem (NS ++ "Contents") None
                     [Elem (NS ++ "Key") (Some k) []]) keys) =
  map (fun k => Elem (NS ++ "Key") (Some k) []) keys.
Proof.
  induction keys as [|k keys IH]; [reflexivity|].
  cbn [map flat_map]. rewrite IH.
  cbn [iter flat_map].
  change (String.eqb (NS ++ "Contents") (NS ++ "Key")) with false.
  change (String.eqb (NS ++ "Key") (NS ++ "Key")) with true.
  reflexivity.
Qed.

(** The keys of a listing page, in document order. *)
Lemma keys_of_listing (keys : list string) (truncated : bool) :
  map text (iter (NS ++ "Key") (listing keys truncated)) = map Some keys.
Proof.
  unfold listing. cbn [iter flat_map].
  change (String.eqb (NS ++ "ListBucketResult") (NS ++ "Key")) with false.
  change (String.eqb (NS ++ "IsTruncated") (NS ++ "Key")) with false.
  cbn [app]. rewrite iter_contents, map_map. reflexivity.
Qed.

Lemma find_in_contents (t : string) (keys : list string) :
  String.eqb (NS ++ "Contents") t = false ->
  List.find (fun c => String.eqb (tag c) t)
    (map (fun k => Elem (NS ++ "Contents") None
                     [Elem (NS ++ "Key") (Some k) []]) keys) = None.
Proof.
  intros E. induction keys as [|k keys IH]; [reflexivity|].
  cbn [map List.find tag]. now rewrite E.
Qed.

(** After a truncated page without [NextMarker] the last key retrieved
    so far becomes the marker. *)
Lemma next_page_truncated (keys : list string) (params : Dict PyVal)
  (acc : list PyStr) (key : PyStr) :
  list_last acc = Some key ->
  next_page (listing keys true) params acc =
    NextPage (dict_set "marker" (pyval_of_text key) params).
Proof.
  intros LAST. unfold next_page, listing, find.
  cbn [children List.find tag text].
  change (String.eqb (NS ++ "IsTruncated") (NS ++ "IsTruncated")) with true.
  change (String.eqb (NS ++ "IsTruncated") (NS ++ "NextMarker")) with false.
  cbv beta iota.
  rewrite find_in_contents by reflexivity.
  cbn. now rewrite LAST.
Qed.

(** A truncated page when no key has been retrieved at all ends the
    loop with a warning. *)
Lemma next_page_no_keys (params : Dict PyVal) :
  next_page (listing [] true) params [] =
    GiveUp "Result had no keys but was marked as truncated".
Proof. reflexivity. Qed.

(** A page that is not truncated ends the loop. *)
Lemma next_page_final (keys : list string) (params : Dict PyVal)
  (acc : list PyStr) :
  next_page (listing keys false) params acc = Done.
Proof. reflexivity. Qed.

Lemma chunk_ids_filter (prefix : string) (keys : list string) :
  chunk_ids prefix (map Some keys) =
    inr (map (slice_to_neg (String.length prefix + 1) 4)
           (filter (fun key => endswith key ".npy") keys)).
Proof.
  induction keys as [|k keys IH]; [reflexivity|].
  cbn [map chunk_ids filter]. rewrite IH.
  now destruct (endswith k ".npy").
Qed.

Lemma chunk_ids_key_of (prefix : string) (idxs : list string) :
  chunk_ids prefix (map Some (map (key_of prefix) idxs)) = inr idxs.
Proof.
  rewrite chunk_ids_filter. f_equal.
  induction idxs as [|i idxs IH]; [reflexivity|].
  cbn [map filter]. rewrite endswith_key_of. cbn [map].
  now rewrite slice_key_of, IH.
Qed.

Lemma plays_next (b : Backend) (base : nat) (a : Attempt)
  (script : list Attempt) :
  plays b base (a :: script) -> plays b (S base) script.
Proof.
  intros P i history t I LEN.
  rewrite (P (S i) history t); [reflexivity | simpl; lia | lia].
Qed.

Lemma plays_first (b : Backend) (base : nat) (a : Attempt)
  (script : list Attempt) (history : list Transmission) (t : Transmission) :
  plays b base (a :: script) ->
  List.length history = base ->
  b history t = a.
Proof.
  intros P LEN. rewrite (P 0 history t); [reflexivity | simpl; lia | lia].
Qed.

(** The loop of [list_chunk_ids] against a backend that plays the
    truncated pages [pages] and then the final page [last]: it returns
    the keys of all pages in the order received, after one request per
    page, each of them a GET of the listing URL. *)
Lemma list_pages_script `{Libs} (url : string) (timeout : option Q)
  (u : string) (last : list string) (last_body : list byte) :
  http_url u = true ->
  fromstring last_body = inr (listing last false) ->
  forall (bodies : list (list byte)) (pages : list (list string)),
    Forall2 (fun body keys => fromstring body = inr (listing keys true))
      bodies pages ->
    forall (acc : list PyStr) (params : Dict PyVal) (w : World) (fuel : nat),
      Forall session_ok (_pool w) ->
      plays (backend w) (List.length (log w))
        (map ok (bodies ++ [last_body])) ->
      acc <> [] \/ pages = [] \/ hd [] pages <> [] ->
      List.length pages < fuel ->
      exists w' sent,
        list_pages fuel (new_store (session_factory url timeout) url) u
          params acc w =
          Some (inr (acc ++ map Some (List.concat pages ++ last)), w') /\
        log w' = log w ++ sent /\
        List.length sent = S (List.length pages) /\
        Forall (fun t => req_method (tx_request t) = GET /\
                         req_url (tx_request t) = u) sent /\
        warnings w' = warnings w.
Proof.
  intros U LAST bodies pages F.
  induction F as [|body keys bodies pages PARSE F IH];
    intros acc params w fuel OK PLAY NE FUEL.
  - destruct fuel as [|fuel]; [simpl in FUEL; lia|].
    destruct (request_replied url timeout None (listing_request u params)
                (fun response => fromstring (content response)) w
                {| status_code := 200; content := last_body |}
                (listing last false))
      as (w' & t & R & T & LOG & _ & _ & WARN); auto.
    { intros t0 _. now apply (plays_first _ _ _ _ _ _ PLAY). }
    exists w', [t]. cbn [list_pages]. cbv beta in R. rewrite R.
    rewrite keys_of_listing, next_page_final.
    repeat split; auto.
    constructor; [|constructor]. now rewrite T.
  - destruct fuel as [|fuel]; [simpl in FUEL; lia|].
    destruct (request_replied url timeout None (listing_request u params)
                (fun response => fromstring (content response)) w
                {| status_code := 200; content := body |}
                (listing keys true))
      as (w1 & t & R & T & LOG & BE & OK1 & WARN); auto.
    { intros t0 _. now apply (plays_first _ _ _ _ _ _ PLAY). }
    assert (acc ++ map Some keys <> []) as NE1.
    { destruct NE as [NE|[NE|NE]].
      - destruct acc; [congruence | discriminate].
      - discriminate.
      - simpl in NE. destruct keys; [congruence|].
        destruct acc; discriminate. }
    destruct (list_last_nonempty _ NE1) as [key KEY].
    destruct (IH (acc ++ map Some keys)
                 (dict_set "marker" (pyval_of_text key) params) w1 fuel)
      as (w' & sent & L & LOG' & LEN & ALL & WARN'); auto.
    { rewrite BE, LOG, length_app. cbn [List.length].
      rewrite Nat.add_1_r. now apply (plays_next _ _ _ _ PLAY). }
    { simpl in FUEL. lia. }
    exists w', (t :: sent). cbn [list_pages]. cbv beta in R. rewrite R.
    rewrite keys_of_listing, (next_page_truncated _ _ _ key KEY), L.
    repeat split.
    + cbn [List.concat].
      now rewrite <- (app_assoc keys), (map_app Some keys), (app_assoc acc).
    + rewrite LOG', LOG, <- app_assoc. reflexivity.
    + simpl. now rewrite LEN.
    + constructor; [now rewrite T | exact ALL].
    + congruence.
Qed.

Lemma scripted_plays (script : list Attempt) : plays (scripted script) 0 script.
Proof. intros i history t _ LEN. unfold scripted. now rewrite LEN. Qed.

Lemma Forall2_map_r {A B C} (R : A -> C -> Prop) (f : B -> C)
  (l : list A) (l' : list B) :
  Forall2 (fun a b => R a (f b)) l l' -> Forall2 R l (map f l').
Proof. induction 1; simpl; constructor; auto. Qed.

(** The result of [list_chunk_ids] against a backend that plays the
    truncated pages [pages] and the final page [last]. *)
Lemma list_chunk_ids_script `{Libs} (url : string) (timeout : option Q)
  (array_name bucket prefix : string) (bodies : list (list byte))
  (pages : list (list string)) (last : list string) (last_body : list byte)
  (w : World) (fuel : nat) :
  split array_name 1 = inr (bucket, prefix) ->
  http_url (urljoin url (quote bucket)) = true ->
  Forall session_ok (_pool w) ->
  Forall2 (fun body keys => fromstring body = inr (listing keys true))
    bodies pages ->
  fromstring last_body = inr (listing last false) ->
  plays (backend w) (List.length (log w)) (map ok (bodies ++ [last_body])) ->
  pages = [] \/ hd [] pages <> [] ->
  List.length pages < fuel ->
  exists w' sent,
    list_chunk_ids fuel (new_store (session_factory url timeout) url)
      array_name w =
      Some (chunk_ids prefix (map Some (List.concat pages ++ last)), w') /\
    log w' = log w ++ sent /\
    List.length sent = S (List.length pages) /\
    Forall (fun t => req_method (tx_request t) = GET /\
                     req_url (tx_request t) = urljoin url (quote bucket))
      sent.
Proof.
  intros SPLIT U OK F LAST PLAY NE FUEL.
  destruct (list_pages_script url timeout (urljoin url (quote bucket))
              last last_body U LAST bodies pages F []
              [("prefix", PStr prefix); ("max-keys", PInt list_max_keys)]
              w fuel) as (w' & sent & L & LOG & LEN & ALL & _); auto.
  exists w', sent. unfold list_chunk_ids. rewrite SPLIT.
  cbn [new_store _url]. rewrite L. auto.
Qed.

Lemma dict_set_twice {V} (k : string) (v v' : V) (d : Dict V) :
  dict_set k v (dict_set k v' d) = dict_set k v d.
Proof.
  induction d as [|[k0 v0] d IH]; simpl.
  - now rewrite String.eqb_refl.
  - destruct (String.eqb k0 k) eqn:E; simpl.
    + now rewrite String.eqb_refl.
    + now rewrite E, IH.
Qed.

(** The parameters of the requests of the loop of [list_chunk_ids]
    against a backend that plays the truncated pages [pages] and the
    final page [last]. *)
Lemma list_pages_params `{Libs} (url : string) (timeout : option Q)
  (u : string) (params0 : Dict PyVal) (last : list string)
  (last_body : list byte) :
  http_url u = true ->
  fromstring last_body = inr (listing last false) ->
  forall (bodies : list (list byte)) (pages : list (list string)),
    Forall2 (fun body keys => fromstring body = inr (listing keys true))
      bodies pages ->
    forall (acc : list PyStr) (params : Dict PyVal) (w : World) (fuel : nat),
      (forall v, dict_set "marker" v params = dict_set "marker" v params0) ->
      Forall session_ok (_pool w) ->
      plays (backend w) (List.length (log w))
        (map ok (bodies ++ [last_body])) ->
      acc <> [] \/ pages = [] \/ hd [] pages <> [] ->
      List.length pages < fuel ->
      exists w' sent,
        list_pages fuel (new_store (session_factory url timeout) url) u
          params acc w =
          Some (inr (acc ++ map Some (List.concat pages ++ last)), w') /\
        log w' = log w ++ sent /\
        map (fun t => req_params (tx_request t)) sent =
          params :: later_params params0 acc pages.
Proof.
  intros U LAST bodies pages F.
  induction F as [|body keys bodies pages PARSE F IH];
    intros acc params w fuel SAME OK PLAY NE FUEL.
  - destruct fuel as [|fuel]; [simpl in FUEL; lia|].
    destruct (request_replied url timeout None (listing_request u params)
                (fun response => fromstring (content response)) w
                {| status_code := 200; content := last_body |}
                (listing last false))
      as (w' & t & R & T & LOG & _); auto.
    { intros t0 _. now apply (plays_first _ _ _ _ _ _ PLAY). }
    exists w', [t]. cbn [list_pages]. cbv beta in R. rewrite R.
    rewrite keys_of_listing, next_page_final.
    repeat split; auto. cbn [map later_params]. now rewrite T.
  - destruct fuel as [|fuel]; [simpl in FUEL; lia|].
    destruct (request_replied url timeout None (listing_request u params)
                (fun response => fromstring (content response)) w
                {| status_code := 200; content := body |}
                (listing keys true))
      as (w1 & t & R & T & LOG & BE & OK1 & _); auto.
    { intros t0 _. now apply (plays_first _ _ _ _ _ _ PLAY). }
    assert (acc ++ map Some keys <> []) as NE1.
    { destruct NE as [NE|[NE|NE]].
      - destruct acc; [congruence | discriminate].
      - discriminate.
      - simpl in NE. destruct keys; [congruence|].
        destruct acc; discriminate. }
    destruct (list_last_nonempty _ NE1) as [key KEY].
    destruct (IH (acc ++ map Some keys)
                 (dict_set "marker" (pyval_of_text key) params) w1 fuel)
      as (w' & sent & L & LOG' & PARAMS); auto.
    { intros v. rewrite dict_set_twice. apply SAME. }
    { rewrite BE, LOG, length_app. cbn [List.length].
      rewrite Nat.add_1_r. now apply (plays_next _ _ _ _ PLAY). }
    { simpl in FUEL. lia. }
    exists w', (t :: sent). cbn [list_pages]. cbv beta in R. rewrite R.
    rewrite keys_of_listing, (next_page_truncated _ _ _ key KEY), L.
    repeat split.
    + cbn [List.concat].
      now rewrite <- (app_assoc keys), (map_app Some keys), (app_assoc acc).
    + rewrite LOG', LOG, <- app_assoc. reflexivity.
    + cbn [map later_params]. rewrite KEY, T, PARAMS, SAME. reflexivity.
Qed.




(** C10. Against the same kind of backend, whatever the keys are:
    [list_chunk_ids] returns normally, and its result is made of the
    keys that end in [.npy] only, each sliced; a key that does not end
    in [.npy] adds nothing to the result and raises nothing. *)
Theorem list_chunk_ids_omits_other_keys `{Libs} (url : string)
  (timeout : option Q) (array_name bucket prefix : string)
  (bodies : list (list byte)) (pages : list (list string))
  (last : list string) (last_body : list byte) (w : World) (fuel : nat) :
  split array_name 1 = inr (bucket, prefix) ->
  http_url (urljoin url (quote bucket)) = true ->
  Forall session_ok (_pool w) ->
  Forall2 (fun body keys => fromstring body = inr (listing keys true))
    bodies pages ->
  fromstring last_body = inr (listing last false) ->
  plays (backend w) (List.length (log w)) (map ok (bodies ++ [last_body])) ->
  pages = [] \/ hd [] pages <> [] ->
  List.length pages < fuel ->
  exists w',
    list_chunk_ids fuel (new_store (session_factory url timeout) url)
      array_name w =
      Some (inr (map (slice_to_neg (String.length prefix + 1) 4)
                   (filter (fun key => endswith key ".npy")
                      (List.concat pages ++ last))), w') /\
    warnings w' = warnings w.
Proof.
  intros SPLIT U OK F LAST PLAY NE FUEL.
  destruct (list_pages_script url timeout (urljoin url (quote bucket))
              last last_body U LAST bodies pages F []
              [("prefix", PStr prefix); ("max-keys", PInt list_max_keys)]
              w fuel) as (w' & sent & L & _ & _ & _ & WARN); auto.
  exists w'. unfold list_chunk_ids. rewrite SPLIT.
  cbn [new_store _url]. rewrite L. cbn [app].
  now rewrite chunk_ids_filter.
Qed.

Lemma list_chunk_ids_omits_other_keys_witness :
  let L := Fixture.libs mixed_page in
  let w := fresh (scripted [ok []]) in
  exists w',
    list_chunk_ids (H := L) 1 Fixture.store "b/arr" w =
      Some (inr ["0001"; "0002"], w') /\
    warnings w' = warnings w.
Proof.
  intros L w.
  apply (list_chunk_ids_omits_other_keys (H := L) Fixture.url (Some 10%Q)
           "b/arr" "b" "arr" [] []
           ["arr/0001.npy"; "arr/notes.txt"; "arr/0002.npy"] [] w 1).
  - reflexivity.
  - reflexivity.
  - constructor.
  - constructor.
  - reflexivity.
  - apply scripted_plays.
  - now left.
  - simpl. lia.
Defined.

(* ================================================================== *)
(** * Further properties of the module *)

(** ** [_TimeoutHTTPAdapter.send] and the attempts of a request *)

(** Everything [urlopen] puts on the wire is the same transmission, at
    least once and at most once more than the budget; nothing else of
    the state changes. *)
Lemma urlopen_log (n : nat) (tx : Transmission) :
  forall w,
    exists k,
      1 <= k <= S n /\
      log (snd (urlopen n tx w)) = log w ++ repeat tx k /\
      _pool (snd (urlopen n tx w)) = _pool w /\
      next_sid (snd (urlopen n tx w)) = next_sid w /\
      backend (snd (urlopen n tx w)) = backend w /\
      warnings (snd (urlopen n tx w)) = warnings w.
Proof.
  induction n as [|n IH]; intros w; simpl.
  - exists 1.
    destruct (backend w (log w) tx) as [msg|r|r];
      try destruct (retry_after_status (status_code r)); simpl; auto 10.
  - assert (exists k,
               1 <= k <= S (S n) /\
               log (snd (urlopen n tx (add_log tx w))) = log w ++ repeat tx k /\
               _pool (snd (urlopen n tx (add_log tx w))) = _pool w /\
               next_sid (snd (urlopen n tx (add_log tx w))) = next_sid w /\
               backend (snd (urlopen n tx (add_log tx w))) = backend w /\
               warnings (snd (urlopen n tx (add_log tx w))) = warnings w)
      as AGAIN.
    { destruct (IH (add_log tx w)) as (k & K & LOG & P & SID & B & W).
      exists (S k). rewrite LOG, P, SID, B, W. simpl.
      rewrite <- app_assoc. repeat split; auto; lia. }
    assert (exists k,
               1 <= k <= S (S n) /\
               log (add_log tx w) = log w ++ repeat tx k /\
               _pool (add_log tx w) = _pool w /\
               next_sid (add_log tx w) = next_sid w /\
               backend (add_log tx w) = backend w /\
               warnings (add_log tx w) = warnings w) as ONCE.
    { exists 1. simpl. repeat split; auto; lia. }
    destruct (backend w (log w) tx) as [msg|r|r];
      try destruct (retry_after_status (status_code r)); assumption.
Qed.

(** X1. Every attempt that a session made by [session_factory] makes for
    a request to a URL under the store URL carries the request as it is
    and the timeout the factory was made with; there are between one and
    three of them. *)
Theorem attempts_carry_default_timeout (url : string) (timeout : option Q)
  (n : nat) (request : Request) (w : World) :
  String.length "https://" < String.length url ->
  startswith (lower (req_url request)) (lower url) = true ->
  let s := mount url (_TimeoutHTTPAdapter 2 timeout) (requests_Session n) in
  exists k,
    1 <= k <= 3 /\
    log (snd (session_request s request w)) =
      log w ++ repeat {| tx_request := request; tx_timeout := timeout |} k.
Proof.
  intros LEN PRE s. unfold session_request, s.
  rewrite (get_adapter_mounted url timeout n (req_url request) LEN PRE).
  unfold send. cbn [_TimeoutHTTPAdapter max_retries _default_timeout].
  destruct (urlopen_log 2 {| tx_request := request; tx_timeout := timeout |} w)
    as (k & K & LOG & _).
  exists k. auto.
Qed.

Lemma attempts_carry_default_timeout_witness :
  let s := mount Fixture.url (_TimeoutHTTPAdapter 2 (Some 10%Q))
             (requests_Session 0) in
  let request := get_request "http://s3/b/arr/0_4.npy" in
  exists k,
    1 <= k <= 3 /\
    log (snd (session_request s request
                (fresh (scripted [ConnFail "reset"; ok []])))) =
      [] ++ repeat {| tx_request := request; tx_timeout := Some 10%Q |} k.
Proof.
  intros s request.
  apply (attempts_carry_default_timeout Fixture.url (Some 10%Q) 0 request
           (fresh (scripted [ConnFail "reset"; ok []]))).
  - simpl. lia.
  - reflexivity.
Defined.

(** ** [_raise_for_status] *)

(** X2. [_raise_for_status] returns for a status outside 400..599,
    raises [ChunkNotFound] for 404 and [StoreUnavailable] for every
    other status in 400..599, each with the text of the library's error,
    and leaves the state alone; the [HTTPError] of requests never gets
    out. *)
Theorem raise_for_status_kinds `{Libs} (url : string) (response : Response)
  (w : World) :
  let status := status_code response in
  ((status < 400 \/ 600 <= status)%Z ->
   _raise_for_status url response w = (inr tt, w)) /\
  (status = 404%Z ->
   _raise_for_status url response w =
     (inl (mkExc ChunkNotFound (http_error_str url 404)), w)) /\
  ((400 <= status < 600)%Z -> status <> 404%Z ->
   _raise_for_status url response w =
     (inl (mkExc StoreUnavailable (http_error_str url status)), w)) /\
  (forall e w', _raise_for_status url response w = (inl e, w') ->
     exc_class e = ChunkNotFound \/ exc_class e = StoreUnavailable).
Proof.
  intros status. unfold _raise_for_status, raise_for_status. fold status.
  destruct ((400 <=? status) && (status <? 600))%Z eqn:E.
  - apply andb_true_iff in E as [LO HI].
    apply Z.leb_le in LO. apply Z.ltb_lt in HI.
    cbn [isinstance exc_class issubclass ExcClass_eqb orb exc_msg].
    destruct (status =? 404)%Z eqn:S4.
    + apply Z.eqb_eq in S4. repeat split.
      * lia.
      * intros _. now rewrite S4.
      * congruence.
      * intros e w' [= <- _]. now left.
    + apply Z.eqb_neq in S4. repeat split.
      * lia.
      * congruence.
      * intros e w' [= <- _]. now right.
  - apply andb_false_iff in E.
    assert (status < 400 \/ 600 <= status)%Z as OUT.
    { destruct E as [E|E]; [apply Z.leb_gt in E | apply Z.ltb_ge in E]; lia. }
    repeat split.
    + intros ->. lia.
    + lia.
    + discriminate.
Qed.

(** ** [_Pool] *)

(** X3. An item that is put into the pool is the one the next [get]
    returns, without a call of the factory, and the pool is then as it
    was before the [put]. *)
Theorem pool_put_then_get (factory : M Session) (item : Session)
  (w : World) :
  let r := bind (_Pool.put item) (fun _ => _Pool.get factory) w in
  fst r = inr item /\
  _pool (snd r) = _pool w /\
  next_sid (snd r) = next_sid w /\
  log (snd r) = log w.
Proof.
  unfold bind, _Pool.put, _Pool.get. cbn [set_pool _pool].
  rewrite list_pop_app. auto.
Qed.

(** X4. A [with self._session_pool() as session] block whose body
    returns and leaves the pool alone: with idle sessions in the pool,
    the pool and the number of sessions constructed are afterwards what
    they were; with an empty pool, one session was constructed and is
    now the only idle one. *)
Theorem scoped_use_keeps_idle_sessions {A} (url : string)
  (timeout : option Q) (body : Session -> M A) (a : A) (w : World) :
  (forall item w1,
      exists w2, body item w1 = (inr a, w2) /\
                 _pool w2 = _pool w1 /\ next_sid w2 = next_sid w1) ->
  let r := _Pool.__call__ (session_factory url timeout) body w in
  fst r = inr a /\
  (_pool w <> [] ->
   _pool (snd r) = _pool w /\ next_sid (snd r) = next_sid w) /\
  (_pool w = [] ->
   map sid (_pool (snd r)) = [next_sid w] /\
   next_sid (snd r) = S (next_sid w)).
Proof.
  intros BODY r. unfold r, _Pool.__call__, bind, _Pool.get.
  destruct (list_pop (_pool w)) as [[item rest]|] eqn:P.
  - apply list_pop_some in P.
    destruct (BODY item (set_pool rest w)) as (w2 & B & PL & SID).
    rewrite B. cbn [_Pool.put ret fst snd set_pool _pool next_sid].
    rewrite PL, SID. cbn [set_pool _pool next_sid]. rewrite P.
    split; [reflexivity | split].
    + intros _. auto.
    + intros E. destruct rest; discriminate.
  - apply list_pop_none in P. unfold session_factory.
    destruct (BODY (mount url (_TimeoutHTTPAdapter 2 timeout)
                      (requests_Session (next_sid w)))
                   (set_next_sid (S (next_sid w)) w)) as (w2 & B & PL & SID).
    rewrite B. cbn [_Pool.put ret fst snd set_pool _pool next_sid].
    rewrite PL, SID. cbn [set_next_sid _pool next_sid]. rewrite P.
    split; [reflexivity | split].
    + intros NE. now elim NE.
    + intros _. auto.
Qed.

Lemma scoped_use_keeps_idle_sessions_witness :
  let w := fresh object_store in
  let r := _Pool.__call__ (session_factory Fixture.url (Some 10%Q))
             (fun _ => ret 7) w in
  fst r = inr 7 /\
  map sid (_pool (snd r)) = [0] /\ next_sid (snd r) = 1.
Proof.
  intros w r.
  destruct (scoped_use_keeps_idle_sessions Fixture.url (Some 10%Q)
              (fun _ => ret 7) 7 w) as (R & _ & NEW).
  - intros item w1. exists w1. auto.
  - split; [exact R|]. now apply NEW.
Defined.

(** ** Requests of a store made by [_from_url] *)

Lemma prefix_refl (s : string) : String.prefix s s = true.
Proof.
  induction s as [|c s IH]; [reflexivity|].
  simpl. destruct (ascii_dec c c); [exact IH | congruence].
Qed.

(** Taking a session: either the last idle one, or a new one when the
    pool is empty. *)
Lemma pool_get_cases (url : string) (timeout : option Q) (w : World) :
  Forall session_ok (_pool w) ->
  exists item w1,
    _Pool.get (session_factory url timeout) w = (inr item, w1) /\
    session_ok item /\
    Forall session_ok (_pool w1) /\
    log w1 = log w /\ backend w1 = backend w /\ warnings w1 = warnings w /\
    ((_pool w = _pool w1 ++ [item] /\ next_sid w1 = next_sid w) \/
     (_pool w = [] /\ _pool w1 = [] /\ next_sid w1 = S (next_sid w))).
Proof.
  intros OK. unfold _Pool.get.
  destruct (list_pop (_pool w)) as [[item rest]|] eqn:P.
  - apply list_pop_some in P. rewrite P in OK.
    apply Forall_app in OK as [REST ITEM].
    exists item, (set_pool rest w). cbn [set_pool _pool log backend warnings].
    inversion ITEM; subst. auto 10.
  - apply list_pop_none in P. unfold session_factory.
    eexists _, _. split; [reflexivity|].
    cbn [set_next_sid _pool log backend warnings next_sid]. rewrite P.
    pose proof (session_factory_ok url timeout (next_sid w)). auto 12.
Qed.

(** A request whose first attempt is answered: what [_request] does is
    decided by the status and by the body of the [with]. *)
Lemma request_answered `{Libs} {A} (url : string) (timeout : option Q)
  (chunk_name : option string) (request : Request)
  (body : Response -> M A) (w : World) (r : Response) :
  Forall session_ok (_pool w) ->
  http_url (req_url request) = true ->
  (forall t, tx_request t = request -> backend w (log w) t = Reply r) ->
  exists item w1 t,
    tx_request t = request /\
    session_ok item /\
    Forall session_ok (_pool w1) /\
    log w1 = log w /\ backend w1 = backend w /\ warnings w1 = warnings w /\
    ((_pool w = _pool w1 ++ [item] /\ next_sid w1 = next_sid w) \/
     (_pool w = [] /\ _pool w1 = [] /\ next_sid w1 = S (next_sid w))) /\
    _request (new_store (session_factory url timeout) url) chunk_name request
      body w =
    _standard_errors
      [(RequestException, StoreUnavailable); (ParseError, StoreUnavailable)]
      chunk_name
      (fun _ =>
         match _raise_for_status (req_url request) r (add_log t w1) with
         | (inl e, w2) => (inl e, w2)
         | (inr _, w2) =>
             match body r w2 with
             | (inr a, w3) => (inr a, set_pool (_pool w3 ++ [item]) w3)
             | (inl e, w3) => (inl e, w3)
             end
         end) w.
Proof.
  intros OK U B.
  destruct (pool_get_cases url timeout w OK)
    as (item & w1 & G & ITEM & OK1 & LOG1 & B1 & W1 & CASES).
  destruct (get_adapter_ok (req_url request) item ITEM U) as [ad AD].
  exists item, w1, (mkTransmission request (_default_timeout ad)).
  repeat (split; [solve [auto]|]).
  unfold _request, _standard_errors, _Pool.__call__, bind.
  cbn [new_store _error_map _session_factory]. rewrite G.
  unfold session_request. rewrite AD. unfold send.
  rewrite (urlopen_reply _ _ w1 r) by (rewrite B1, LOG1; now apply B).
  destruct (_raise_for_status (req_url request) r _) as [[e|[]] w2];
    [reflexivity|].
  destruct (body r w2) as [[e|a] w3]; reflexivity.
Qed.

(** ** Construction *)

Lemma urlopen_refused (n : nat) (tx : Transmission) (msg : string) :
  forall w,
    (forall history, backend w history tx = ConnFail msg) ->
    fst (urlopen n tx w) = inl (mkExc ConnectionError msg) /\
    log (snd (urlopen n tx w)) = log w ++ repeat tx (S n) /\
    _pool (snd (urlopen n tx w)) = _pool w /\
    next_sid (snd (urlopen n tx w)) = next_sid w.
Proof.
  induction n as [|n IH]; intros w DOWN; simpl; rewrite DOWN.
  - simpl. auto.
  - destruct (IH (add_log tx w) DOWN) as (R & LOG & P & SID).
    rewrite R, LOG, P, SID. simpl. rewrite <- app_assoc. auto.
Qed.

(** X5. When the probe of [_from_url] is answered with a status below
    400, construction returns the store for that URL and factory; the
    probe was one GET of the store URL, sent with the timeout; the probe
    session is not in the pool, which is empty. *)
Theorem construction_probes_once `{Libs} (url : string) (timeout : option Q)
  (w : World) (r : Response) :
  String.length "https://" < String.length url ->
  backend w (log w) (mkTransmission (get_request url) timeout) = Reply r ->
  (status_code r < 400)%Z ->
  let res := _from_url url timeout w in
  fst res = inr (new_store (session_factory url timeout) url) /\
  log (snd res) = log w ++ [mkTransmission (get_request url) timeout] /\
  _pool (snd res) = [] /\
  next_sid (snd res) = S (next_sid w).
Proof.
  intros LEN REPLY ST res. unfold res, _from_url.
  set (tx := mkTransmission (get_request url) timeout) in *.
  set (s := mount url (_TimeoutHTTPAdapter 2 timeout)
              (requests_Session (next_sid w))).
  set (w1 := set_next_sid (S (next_sid w)) w).
  assert (session_request s (get_request url) w1 = (inr r, add_log tx w1))
    as SEND.
  { unfold session_request, s. cbn [get_request req_url].
    rewrite (get_adapter_mounted url timeout (next_sid w) url LEN
               (prefix_refl (lower url))).
    unfold send. cbn [_TimeoutHTTPAdapter max_retries _default_timeout].
    now apply urlopen_reply. }
  rewrite (init_ok (session_factory url timeout) url w w1 (add_log tx w1)
             s r eq_refl SEND ST).
  cbn [fst snd set_pool _pool log next_sid add_log set_next_sid w1]. auto.
Qed.

Lemma construction_probes_once_witness :
  let L := Fixture.libs [] in
  let w := fresh object_store in
  let res := _from_url (H := L) "http://s3.test" (Some 10%Q)
               (with_backend (always empty_ok) w) in
  fst res = inr (new_store (session_factory "http://s3.test" (Some 10%Q))
                   "http://s3.test") /\
  log (snd res) =
    [] ++ [mkTransmission (get_request "http://s3.test") (Some 10%Q)] /\
  _pool (snd res) = [] /\
  next_sid (snd res) = 1.
Proof.
  intros L w.
  apply (construction_probes_once (H := L) "http://s3.test" (Some 10%Q)
           (with_backend (always empty_ok) w) empty_ok).
  - simpl. lia.
  - reflexivity.
  - reflexivity.
Defined.

(** X6. When the endpoint refuses every connection, [_from_url] raises
    [StoreUnavailable] with the text of the connection error, after
    three attempts at the probe (the first and two retries). *)
Theorem construction_gives_up_after_three_attempts `{Libs} (url : string)
  (timeout : option Q) (w : World) (msg : string) :
  String.length "https://" < String.length url ->
  (forall history,
      backend w history (mkTransmission (get_request url) timeout) =
        ConnFail msg) ->
  let res := _from_url url timeout w in
  fst res = inl (mkExc StoreUnavailable msg) /\
  log (snd res) =
    log w ++ repeat (mkTransmission (get_request url) timeout) 3.
Proof.
  intros LEN DOWN res.
  set (tx := mkTransmission (get_request url) timeout) in *.
  destruct (urlopen_refused 2 tx msg (set_next_sid (S (next_sid w)) w) DOWN)
    as (R & LOG & _).
  assert (session_request
            (mount url (_TimeoutHTTPAdapter 2 timeout)
               (requests_Session (next_sid w)))
            (get_request url) (set_next_sid (S (next_sid w)) w) =
          urlopen 2 tx (set_next_sid (S (next_sid w)) w)) as SEND.
  { unfold session_request. cbn [get_request req_url].
    now rewrite (get_adapter_mounted url timeout (next_sid w) url LEN
                   (prefix_refl (lower url))). }
  unfold res, _from_url.
  destruct (urlopen 2 tx (set_next_sid (S (next_sid w)) w)) as [[e|r] w2]
    eqn:U; simpl in R; [|discriminate].
  injection R as ->.
  rewrite (init_request_error (session_factory url timeout) url w _ w2 _ _
             eq_refl SEND eq_refl).
  simpl in LOG. simpl. auto.
Qed.

Lemma construction_gives_up_after_three_attempts_witness :
  let L := Fixture.libs [] in
  let tx := mkTransmission (get_request "http://s3.test") (Some 10%Q) in
  let res := _from_url (H := L) "http://s3.test" (Some 10%Q)
               (fresh (scripted [])) in
  fst res = inl (mkExc StoreUnavailable "refused") /\
  log (snd res) = [] ++ repeat tx 3.
Proof.
  intros L tx.
  apply (construction_gives_up_after_three_attempts (H := L)
           "http://s3.test" (Some 10%Q) (fresh (scripted [])) "refused").
  - simpl. lia.
  - intros history. unfold fresh, scripted. cbn [backend].
    now destruct (List.length history).
Defined.

(** X7. Without a timeout [from_url] has no deadline and ignores
    [extra_timeout]: it gives whatever the worker delivers, whenever
    that is, and does not return if the worker never delivers. *)
Theorem from_url_without_timeout `{Libs} (url : string) (extra_timeout : Q)
  (worker : Worker) (w : World) :
  from_url url None extra_timeout worker w =
    match worker with
    | Never => None
    | FinishesAfter _ =>
        match _from_url url None w with
        | (inr store, w') => Some (inr (store, w'))
        | (inl e, _) => Some (inl e)
        end
    end.
Proof.
  unfold from_url, queue_get.
  destruct worker; [reflexivity|].
  now destruct (_from_url url None w) as [[e|store] w'].
Qed.

(** X8. With a finite timeout and a non-negative deadline, when the
    worker delivers by the deadline and construction succeeded there,
    [from_url] returns that store. *)
Theorem from_url_returns_store `{Libs} (url : string)
  (timeout extra_timeout : Q) (worker : Worker) (w w' : World)
  (store : S3ChunkStore) :
  (0 <= timeout + extra_timeout)%Q ->
  finished_by worker (timeout + extra_timeout) ->
  _from_url url (Some timeout) w = (inr store, w') ->
  from_url url (Some timeout) extra_timeout worker w =
    Some (inr (store, w')).
Proof.
  intros NN INTIME OKAY. apply Qle_bool_iff in NN.
  unfold from_url, queue_get. rewrite NN.
  destruct worker as [|t]; [now elim INTIME|].
  simpl in INTIME. apply Qle_bool_iff in INTIME.
  now rewrite INTIME, OKAY.
Qed.

Lemma from_url_returns_store_witness :
  let L := Fixture.libs [] in
  let w := fresh (always empty_ok) in
  from_url (H := L) "http://s3" (Some 10%Q) 1 (FinishesAfter 2) w =
    Some (inr (new_store (session_factory "http://s3" (Some 10%Q)) "http://s3",
               snd (_from_url (H := L) "http://s3" (Some 10%Q) w))).
Proof.
  intros L w.
  apply (from_url_returns_store (H := L) "http://s3" 10 1 (FinishesAfter 2) w).
  - discriminate.
  - discriminate.
  - vm_compute. reflexivity.
Defined.

(** ** Errors of a request *)

(** X9. Whatever the body of the [with] does and whatever the backend
    answers, an exception that leaves [_request] of a store made by
    [__init__] is neither a [RequestException] of requests nor a
    [ParseError]: these are raised as [StoreUnavailable]. *)
Theorem request_never_leaks_transport_errors `{Libs} {A}
  (factory : M Session) (url : string) (chunk_name : option string)
  (request : Request) (body : Response -> M A) (w : World) :
  match fst (_request (new_store factory url) chunk_name request body w) with
  | inl e =>
      isinstance e RequestException = false /\
      isinstance e ParseError = false
  | inr _ => True
  end.
Proof.
  unfold _request, _standard_errors. cbn [new_store _error_map].
  destruct (_Pool.__call__ _ _ w) as [[e|a] w']; [|exact I].
  cbn [List.find fst].
  destruct (isinstance e RequestException) eqn:R; [simpl; auto|].
  destruct (isinstance e ParseError) eqn:P; simpl; auto.
Qed.


(** A request answered with a status outside 400..599 whose body only
    inspects the response and returns. *)
Lemma request_returns `{Libs} {A} (url : string) (timeout : option Q)
  (chunk_name : option string) (request : Request)
  (f : Response -> Exc + A) (w : World) (r : Response) (a : A) :
  Forall session_ok (_pool w) ->
  http_url (req_url request) = true ->
  (forall t, tx_request t = request -> backend w (log w) t = Reply r) ->
  ((400 <=? status_code r) && (status_code r <? 600))%Z = false ->
  f r = inr a ->
  exists w' t,
    _request (new_store (session_factory url timeout) url) chunk_name request
      (fun response => lift (f response)) w = (inr a, w') /\
    tx_request t = request /\
    log w' = log w ++ [t] /\
    backend w' = backend w /\
    warnings w' = warnings w /\
    Forall session_ok (_pool w') /\
    _pool w' <> [] /\
    (_pool w <> [] -> _pool w' = _pool w /\ next_sid w' = next_sid w).
Proof.
  intros OK U B ST F.
  destruct (request_answered url timeout chunk_name request
              (fun response => lift (f response)) w r OK U B)
    as (item & w1 & t & T & ITEM & OK1 & LOG1 & B1 & W1 & CASES & EQ).
  exists (set_pool (_pool (add_log t w1) ++ [item]) (add_log t w1)), t.
  split.
  - rewrite EQ. unfold _standard_errors, _raise_for_status, raise_for_status.
    rewrite ST. unfold ret, lift. now rewrite F.
  - cbn [set_pool add_log _pool log backend warnings next_sid].
    rewrite LOG1, B1, W1. repeat split; auto.
    + apply Forall_app; split; auto.
    + intros E. destruct (_pool w1); discriminate.
    + destruct CASES as [[P _]|[P _]]; [now rewrite P | congruence].
    + destruct CASES as [[_ S1]|[P _]]; [exact S1 | congruence].
Qed.



(** A request answered with a status outside 400..599 whose body only
    inspects the response and raises. *)
Lemma request_body_raises `{Libs} {A} (url : string) (timeout : option Q)
  (chunk_name : option string) (request : Request)
  (f : Response -> Exc + A) (w : World) (r : Response) (e : Exc) :
  Forall session_ok (_pool w) ->
  http_url (req_url request) = true ->
  (forall t, tx_request t = request -> backend w (log w) t = Reply r) ->
  ((400 <=? status_code r) && (status_code r <? 600))%Z = false ->
  f r = inl e ->
  exists w' t,
    _request (new_store (session_factory url timeout) url) chunk_name request
      (fun response => lift (f response)) w =
      (inl (standardised chunk_name e), w') /\
    tx_request t = request /\
    log w' = log w ++ [t] /\
    backend w' = backend w /\
    warnings w' = warnings w /\
    Forall session_ok (_pool w').
Proof.
  intros OK U B ST F.
  destruct (request_answered url timeout chunk_name request
              (fun response => lift (f response)) w r OK U B)
    as (item & w1 & t & T & ITEM & OK1 & LOG1 & B1 & W1 & CASES & EQ).
  exists (add_log t w1), t. split.
  - rewrite EQ. unfold _standard_errors, _raise_for_status, raise_for_status.
    rewrite ST. unfold ret, lift. rewrite F. unfold standardised.
    cbn [List.find fst].
    destruct (isinstance e RequestException); [reflexivity|].
    destruct (isinstance e ParseError); reflexivity.
  - cbn [add_log _pool log backend warnings].
    rewrite LOG1, B1, W1. auto.
Qed.

(** A request answered with a status in 400..599. *)
Lemma request_error_status `{Libs} {A} (url : string) (timeout : option Q)
  (chunk_name : option string) (request : Request)
  (body : Response -> M A) (w : World) (r : Response) :
  Forall session_ok (_pool w) ->
  http_url (req_url request) = true ->
  (forall t, tx_request t = request -> backend w (log w) t = Reply r) ->
  (400 <= status_code r < 600)%Z ->
  exists w' t,
    _request (new_store (session_factory url timeout) url) chunk_name request
      body w =
      (inl (mkExc (if (status_code r =? 404)%Z
                   then ChunkNotFound else StoreUnavailable)
              (http_error_str (req_url request) (status_code r))), w') /\
    tx_request t = request /\
    log w' = log w ++ [t] /\
    backend w' = backend w /\
    warnings w' = warnings w /\
    Forall session_ok (_pool w').
Proof.
  intros OK U B [LO HI].
  destruct (request_answered url timeout chunk_name request body w r OK U B)
    as (item & w1 & t & T & ITEM & OK1 & LOG1 & B1 & W1 & CASES & EQ).
  exists (add_log t w1), t. split.
  - rewrite EQ. unfold _standard_errors, _raise_for_status, raise_for_status.
    apply Z.leb_le in LO. apply Z.ltb_lt in HI. rewrite LO, HI.
    cbn [andb isinstance exc_class issubclass ExcClass_eqb orb exc_msg].
    destruct (status_code r =? 404)%Z; reflexivity.
  - cbn [add_log _pool log backend warnings].
    rewrite LOG1, B1, W1. auto.
Qed.

(** ** Chunk operations *)

(** X10. Nothing is sent and no session is taken when the chunk cannot
    be named or written: [get_chunk] and [has_chunk] raise what
    [chunk_metadata] raises, [put_chunk] raises what [chunk_metadata] or
    the array writer raises, [list_chunk_ids] raises what [split]
    raises, and each leaves the state as it was. *)
Theorem no_request_without_a_valid_chunk `{Libs} (self : S3ChunkStore)
  (array_name : string) (slices : list Slice) (dt : Dtype) (chunk : ndarray)
  (w : World) (e : Exc) :
  (chunk_metadata array_name slices None (Some dt) = inl e ->
   get_chunk self array_name slices dt w = (inl e, w) /\
   has_chunk self array_name slices dt w = (inl e, w)) /\
  (chunk_metadata array_name slices (Some chunk) None = inl e ->
   put_chunk self array_name slices chunk w = (inl e, w)) /\
  (forall chunk_name shp,
      chunk_metadata array_name slices (Some chunk) None =
        inr (chunk_name, shp) ->
      write_array false chunk = inl e ->
      put_chunk self array_name slices chunk w = (inl e, w)) /\
  (split array_name 1 = inl e ->
   forall fuel, list_chunk_ids fuel self array_name w = Some (inl e, w)).
Proof.
  split; [|split; [|split]].
  - intros M. split.
    + unfold get_chunk, bind, lift. now rewrite M.
    + unfold has_chunk, bind, lift. now rewrite M.
  - intros M. unfold put_chunk, bind, lift. now rewrite M.
  - intros chunk_name shp M W. unfold put_chunk, bind, lift.
    now rewrite M, W.
  - intros S fuel. unfold list_chunk_ids. now rewrite S.
Qed.

Lemma no_request_without_a_valid_chunk_witness :
  let L := Checked.libs [] in
  let w := fresh object_store in
  let reversed := [mkSlice 2 0] in
  let e := mkExc (OtherError "InvalidChunk") "empty range" in
  (get_chunk (H := L) Fixture.store "b/arr" reversed (dtype Fixture.array) w =
     (inl e, w) /\
   has_chunk (H := L) Fixture.store "b/arr" reversed (dtype Fixture.array) w =
     (inl e, w)) /\
  put_chunk (H := L) Fixture.store "b/arr" reversed Fixture.array w =
    (inl e, w).
Proof.
  intros L w reversed e.
  destruct (no_request_without_a_valid_chunk (H := L) Fixture.store "b/arr"
              reversed (dtype Fixture.array) Fixture.array w e)
    as (G & P & _).
  split; [apply G | apply P]; reflexivity.
Defined.


Lemma get_chunk_unfold `{Libs} (self : S3ChunkStore) (array_name : string)
  (slices : list Slice) (dt : Dtype) (chunk_name : string) (shp : Shape)
  (w : World) :
  chunk_metadata array_name slices None (Some dt) = inr (chunk_name, shp) ->
  get_chunk self array_name slices dt w =
    match _request self (Some chunk_name) (GET_of (_chunk_url self chunk_name))
            (fun response => lift (read_array false (content response))) w with
    | (inl e, w') => (inl e, w')
    | (inr chunk, w') => (checked chunk_name shp dt chunk, w')
    end.
Proof.
  intros META. unfold get_chunk, bind, lift, checked, GET_of. rewrite META.
  destruct (_request self (Some chunk_name) _ _ w) as [[e|chunk] w'];
    [reflexivity|].
  now destruct (negb (Shape_eqb (shape chunk) shp) ||
                negb (Dtype_eqb (dtype chunk) dt)).
Qed.

Lemma has_chunk_unfold `{Libs} (self : S3ChunkStore) (array_name : string)
  (slices : list Slice) (dt : Dtype) (chunk_name : string) (shp : Shape)
  (w : World) :
  chunk_metadata array_name slices None (Some dt) = inr (chunk_name, shp) ->
  has_chunk self array_name slices dt w =
    match _request self (Some chunk_name)
            (HEAD_of (_chunk_url self chunk_name))
            (fun response => lift ((fun _ => inr tt) response)) w with
    | (inr _, w') => (inr true, w')
    | (inl e, w') =>
        if isinstance e ChunkNotFound then (inr false, w') else (inl e, w')
    end.
Proof.
  intros META. unfold has_chunk, bind, lift. now rewrite META.
Qed.

Lemma put_chunk_unfold `{Libs} (self : S3ChunkStore) (array_name : string)
  (slices : list Slice) (chunk : ndarray) (chunk_name : string) (shp : Shape)
  (fp : list byte) (w : World) :
  chunk_metadata array_name slices (Some chunk) None = inr (chunk_name, shp) ->
  write_array false chunk = inr fp ->
  put_chunk self array_name slices chunk w =
    _request self (Some chunk_name) (PUT_of (_chunk_url self chunk_name) fp)
      (fun response => lift ((fun _ => inr tt) response)) w.
Proof.
  intros META WR. unfold put_chunk, bind, lift. now rewrite META, WR.
Qed.

(** The attempts of a request are all the log gains, whatever comes of
    the request. *)
Lemma request_log `{Libs} {A} (url : string) (timeout : option Q)
  (chunk_name : option string) (request : Request)
  (f : Response -> Exc + A) (w : World) :
  exists k t,
    tx_request t = request /\
    log (snd (_request (new_store (session_factory url timeout) url)
                chunk_name request (fun response => lift (f response)) w)) =
      log w ++ repeat t k.
Proof.
  assert (forall s w1,
             exists k t,
               tx_request t = request /\
               log (snd (bind (session_request s request)
                           (fun response =>
                              bind (_raise_for_status (req_url request)
                                      response)
                                (fun _ => lift (f response))) w1)) =
                 log w1 ++ repeat t k) as EXCHANGE.
  { intros s w1. unfold bind, session_request.
    destruct (get_adapter (req_url request) s) as [ad|].
    - unfold send.
      destruct (urlopen_log (max_retries ad)
                  (mkTransmission request (_default_timeout ad)) w1)
        as (k & _ & LOG & _).
      exists k, (mkTransmission request (_default_timeout ad)).
      split; [reflexivity|].
      destruct (urlopen _ _ w1) as [[e|r] w2]; [exact LOG|].
      cbn [snd] in LOG. unfold _raise_for_status.
      destruct (raise_for_status (req_url request) r) as [e|[]].
      + destruct (isinstance e HTTPError);
          [destruct (status_code r =? 404)%Z|]; exact LOG.
      + exact LOG.
    - exists 0, (mkTransmission request None). split; [reflexivity|].
      simpl. now rewrite app_nil_r. }
  unfold _request.
  assert (forall (m : M A) map name w0,
             snd (_standard_errors map name m w0) = snd (m w0)) as SND.
  { intros m map name w0. unfold _standard_errors.
    destruct (m w0) as [[e|a] w']; [|reflexivity].
    now destruct (List.find _ map) as [[? ?]|]. }
  rewrite SND. cbn [new_store _session_factory].
  unfold _Pool.__call__, _Pool.get. unfold bind at 1.
  destruct (list_pop (_pool w)) as [[item rest]|].
  - destruct (EXCHANGE item (set_pool rest w)) as (k & t & T & LOG).
    exists k, t. split; [exact T|].
    destruct (bind _ _ (set_pool rest w)) as [[e|a] w2]; exact LOG.
  - unfold session_factory.
    destruct (EXCHANGE (mount url (_TimeoutHTTPAdapter 2 timeout)
                          (requests_Session (next_sid w)))
                       (set_next_sid (S (next_sid w)) w))
      as (k & t & T & LOG).
    exists k, t. split; [exact T|].
    destruct (bind _ _ (set_next_sid (S (next_sid w)) w)) as [[e|a] w2];
      exact LOG.
Qed.

(** X11. Whatever the backend does, everything [put_chunk] puts on the
    wire is a PUT of the URL of the chunk whose body is the array file
    of the chunk, written without pickling, and whose [Content-MD5]
    header is the checksum of that same body. *)
Theorem put_chunk_sends_checksum_of_body `{Libs} (url : string)
  (timeout : option Q) (array_name : string) (slices : list Slice)
  (chunk : ndarray) (w : World) :
  let self := new_store (session_factory url timeout) url in
  exists sent,
    log (snd (put_chunk self array_name slices chunk w)) = log w ++ sent /\
    Forall (fun t =>
              exists chunk_name shp fp,
                chunk_metadata array_name slices (Some chunk) None =
                  inr (chunk_name, shp) /\
                write_array false chunk = inr fp /\
                req_method (tx_request t) = PUT /\
                req_url (tx_request t) =
                  urljoin url (quote (chunk_name ++ ".npy")) /\
                req_data (tx_request t) = Some fp /\
                req_headers (tx_request t) = [("Content-MD5", md5_b64 fp)])
      sent.
Proof.
  intros self.
  destruct (chunk_metadata array_name slices (Some chunk) None)
    as [e|[chunk_name shp]] eqn:META.
  - exists []. unfold put_chunk, bind, lift. rewrite META.
    split; [now rewrite app_nil_r | constructor].
  - destruct (write_array false chunk) as [e|fp] eqn:WR.
    + exists []. unfold put_chunk, bind, lift. rewrite META, WR.
      split; [now rewrite app_nil_r | constructor].
    + rewrite (put_chunk_unfold self array_name slices chunk chunk_name shp
                 fp w META WR).
      destruct (request_log url timeout (Some chunk_name)
                  (PUT_of (_chunk_url self chunk_name) fp)
                  (fun _ => inr tt) w) as (k & t & T & LOG).
      exists (repeat t k). split; [exact LOG|].
      apply Forall_forall. intros t' IN. apply repeat_spec in IN. subst t'.
      exists chunk_name, shp, fp. rewrite T. auto 10.
Qed.

Lemma no_error_200 :
  ((400 <=? 200) && (200 <? 600))%Z = false.
Proof. reflexivity. Qed.

(** [put_chunk] on an object store: the array file is stored under the
    URL of the chunk and the session is back in the pool. *)
Lemma put_chunk_stores `{Libs} (url : string) (timeout : option Q)
  (array_name : string) (slices : list Slice) (chunk : ndarray)
  (chunk_name : string) (shp : Shape) (fp : list byte) (w : World) :
  let self := new_store (session_factory url timeout) url in
  chunk_metadata array_name slices (Some chunk) None = inr (chunk_name, shp) ->
  write_array false chunk = inr fp ->
  http_url (_chunk_url self chunk_name) = true ->
  backend w = object_store ->
  Forall session_ok (_pool w) ->
  exists w1,
    put_chunk self array_name slices chunk w = (inr tt, w1) /\
    backend w1 = object_store /\
    Forall session_ok (_pool w1) /\
    _pool w1 <> [] /\
    stored (_chunk_url self chunk_name) (log w1) = Some fp.
Proof.
  intros self META WR U BE OK.
  destruct (request_returns url timeout (Some chunk_name)
              (PUT_of (_chunk_url self chunk_name) fp) (fun _ => inr tt)
              w empty_ok tt OK U)
    as (w1 & t & R & T & LOG & BE1 & _ & OK1 & NE & _); auto.
  { intros t0 E. rewrite BE. unfold object_store. now rewrite E. }
  exists w1. rewrite (put_chunk_unfold self _ _ _ _ _ _ w META WR).
  repeat split; auto.
  - congruence.
  - rewrite LOG. apply stored_last_put; now rewrite T.
Qed.

(** A GET or HEAD of a stored chunk is answered with its bytes. *)
Lemma object_store_serves (w : World) (u : string) (body : list byte)
  (request : Request) :
  backend w = object_store ->
  stored u (log w) = Some body ->
  req_url request = u ->
  (req_method request = GET ->
   forall t, tx_request t = request ->
     backend w (log w) t = Reply {| status_code := 200; content := body |}) /\
  (req_method request = HEAD ->
   forall t, tx_request t = request ->
     backend w (log w) t = Reply empty_ok).
Proof.
  intros BE ST U. split; intros ME t T; rewrite BE; unfold object_store;
    now rewrite T, ME, U, ST.
Qed.

(** A GET or HEAD of a URL nothing was put to is answered with 404. *)
Lemma object_store_misses (w : World) (u : string) (request : Request) :
  backend w = object_store ->
  stored u (log w) = None ->
  req_url request = u ->
  req_method request = GET \/ req_method request = HEAD ->
  forall t, tx_request t = request -> backend w (log w) t = Reply not_found.
Proof.
  intros BE ST U ME t T. rewrite BE. unfold object_store.
  rewrite T, U, ST. now destruct ME as [-> | ->].
Qed.

(** X12. After [put_chunk] on an object store, [has_chunk] of the same
    chunk returns [True], with the session that [put_chunk] put back
    into the pool: no session is constructed and the pool is as
    [put_chunk] left it. *)
Theorem has_chunk_after_put_chunk `{Libs} (url : string) (timeout : option Q)
  (array_name : string) (slices : list Slice) (A : ndarray)
  (chunk_name : string) (shp shp' : Shape) (fp : list byte) (w : World) :
  chunk_metadata array_name slices (Some A) None = inr (chunk_name, shp) ->
  chunk_metadata array_name slices None (Some (dtype A)) =
    inr (chunk_name, shp') ->
  write_array false A = inr fp ->
  http_url (urljoin url (quote (chunk_name ++ ".npy"))) = true ->
  backend w = object_store ->
  Forall session_ok (_pool w) ->
  let self := new_store (session_factory url timeout) url in
  exists w1 w2,
    put_chunk self array_name slices A w = (inr tt, w1) /\
    has_chunk self array_name slices (dtype A) w1 = (inr true, w2) /\
    _pool w2 = _pool w1 /\
    next_sid w2 = next_sid w1.
Proof.
  intros META1 META2 WR U BE OK self.
  destruct (put_chunk_stores url timeout array_name slices A chunk_name shp
              fp w META1 WR U BE OK) as (w1 & P & BE1 & OK1 & NE & ST).
  destruct (object_store_serves w1 _ fp (HEAD_of (_chunk_url self chunk_name))
              BE1 ST eq_refl) as [_ SERVE].
  destruct (request_returns url timeout (Some chunk_name)
              (HEAD_of (_chunk_url self chunk_name)) (fun _ => inr tt)
              w1 empty_ok tt OK1 U (SERVE eq_refl) no_error_200 eq_refl)
    as (w2 & t & R & _ & _ & _ & _ & _ & _ & SAME).
  exists w1, w2. split; [exact P|].
  rewrite (has_chunk_unfold self _ _ _ _ _ w1 META2).
  fold self in R. cbv beta in R. cbv beta. rewrite R.
  destruct (SAME NE). auto.
Qed.

Lemma has_chunk_after_put_chunk_witness :
  let L := Fixture.libs [] in
  exists w1 w2,
    put_chunk (H := L) Fixture.store "b/arr" Fixture.slices Fixture.array
      (fresh object_store) = (inr tt, w1) /\
    has_chunk (H := L) Fixture.store "b/arr" Fixture.slices
      (dtype Fixture.array) w1 = (inr true, w2) /\
    _pool w2 = _pool w1 /\
    next_sid w2 = next_sid w1.
Proof.
  intros L.
  apply (has_chunk_after_put_chunk (H := L) Fixture.url (Some 10%Q) "b/arr"
           Fixture.slices Fixture.array "b/arr/0_4" [2%Z; 1%Z] [2%Z; 1%Z]
           (Fixture.unary 3 ++ list_byte_of_string "<f4" ++ Fixture.unary 2 ++
            Fixture.unary 2 ++ Fixture.unary 1 ++ buffer Fixture.array)).
  - vm_compute; reflexivity.
  - vm_compute; reflexivity.
  - vm_compute; reflexivity.
  - vm_compute; reflexivity.
  - reflexivity.
  - constructor.
Defined.

(** X13. On an object store that never received a PUT for the URL of a
    chunk, [get_chunk] raises [ChunkNotFound] and [has_chunk] returns
    [False]; each sends one request. *)
Theorem chunk_never_written `{Libs} (url : string) (timeout : option Q)
  (array_name : string) (slices : list Slice) (dt : Dtype)
  (chunk_name : string) (shp : Shape) (w : World) :
  let self := new_store (session_factory url timeout) url in
  let u := urljoin url (quote (chunk_name ++ ".npy")) in
  chunk_metadata array_name slices None (Some dt) = inr (chunk_name, shp) ->
  http_url u = true ->
  backend w = object_store ->
  stored u (log w) = None ->
  Forall session_ok (_pool w) ->
  (exists w' t,
      get_chunk self array_name slices dt w =
        (inl (mkExc ChunkNotFound (http_error_str u 404)), w') /\
      log w' = log w ++ [t]) /\
  (exists w' t,
      has_chunk self array_name slices dt w = (inr false, w') /\
      log w' = log w ++ [t]).
Proof.
  intros self u META U BE ST OK. split.
  - destruct (request_error_status url timeout (Some chunk_name) (GET_of u)
                (fun response => lift (read_array false (content response)))
                w not_found OK U)
      as (w' & t & R & _ & LOG & _); [ | simpl; lia | ].
    { apply (object_store_misses w u (GET_of u) BE ST eq_refl). now left. }
    exists w', t. rewrite (get_chunk_unfold self _ _ _ _ _ w META).
    change (_chunk_url self chunk_name) with u. fold self in R.
    rewrite R. auto.
  - destruct (request_error_status url timeout (Some chunk_name) (HEAD_of u)
                (fun response => lift ((fun _ => inr tt) response))
                w not_found OK U)
      as (w' & t & R & _ & LOG & _); [ | simpl; lia | ].
    { apply (object_store_misses w u (HEAD_of u) BE ST eq_refl). now right. }
    exists w', t. rewrite (has_chunk_unfold self _ _ _ _ _ w META).
    change (_chunk_url self chunk_name) with u. fold self in R.
    rewrite R. auto.
Qed.

Lemma chunk_never_written_witness :
  let L := Fixture.libs [] in
  let w := fresh object_store in
  let u := "http://s3/b/arr/0_4.npy" in
  (exists w' t,
      get_chunk (H := L) Fixture.store "b/arr" Fixture.slices
        (dtype Fixture.array) w =
        (inl (mkExc ChunkNotFound (http_error_str u 404)), w') /\
      log w' = log w ++ [t]) /\
  (exists w' t,
      has_chunk (H := L) Fixture.store "b/arr" Fixture.slices
        (dtype Fixture.array) w = (inr false, w') /\
      log w' = log w ++ [t]).
Proof.
  intros L w u.
  apply (chunk_never_written (H := L) Fixture.url (Some 10%Q) "b/arr"
           Fixture.slices (dtype Fixture.array) "b/arr/0_4" [2%Z; 1%Z] w).
  - vm_compute; reflexivity.
  - vm_compute; reflexivity.
  - reflexivity.
  - reflexivity.
  - constructor.
Defined.

(** X14. [has_chunk] answers [False] for status 404 only: when the HEAD
    request is answered with any other status in 400..599, it raises
    [StoreUnavailable]. *)
Theorem has_chunk_raises_on_other_errors `{Libs} (url : string)
  (timeout : option Q) (array_name : string) (slices : list Slice)
  (dt : Dtype) (chunk_name : string) (shp : Shape) (w : World)
  (r : Response) :
  let self := new_store (session_factory url timeout) url in
  let u := urljoin url (quote (chunk_name ++ ".npy")) in
  chunk_metadata array_name slices None (Some dt) = inr (chunk_name, shp) ->
  http_url u = true ->
  Forall session_ok (_pool w) ->
  (forall t, tx_request t = HEAD_of u -> backend w (log w) t = Reply r) ->
  (400 <= status_code r < 600)%Z ->
  status_code r <> 404%Z ->
  exists w',
    has_chunk self array_name slices dt w =
      (inl (mkExc StoreUnavailable (http_error_str u (status_code r))), w').
Proof.
  intros self u META U OK B RANGE N404.
  destruct (request_error_status url timeout (Some chunk_name) (HEAD_of u)
              (fun response => lift ((fun _ => inr tt) response))
              w r OK U B RANGE)
    as (w' & t & R & _).
  exists w'. rewrite (has_chunk_unfold self _ _ _ _ _ w META).
  change (_chunk_url self chunk_name) with u. fold self in R.
  rewrite R. apply Z.eqb_neq in N404. now rewrite N404.
Qed.

Lemma has_chunk_raises_on_other_errors_witness :
  let L := Fixture.libs [] in
  exists w',
    has_chunk (H := L) Fixture.store "b/arr" Fixture.slices
      (dtype Fixture.array) (fresh (always server_error)) =
      (inl (mkExc StoreUnavailable
              (http_error_str "http://s3/b/arr/0_4.npy" 500)), w').
Proof.
  intros L.
  apply (has_chunk_raises_on_other_errors (H := L) Fixture.url (Some 10%Q)
           "b/arr" Fixture.slices (dtype Fixture.array) "b/arr/0_4"
           [2%Z; 1%Z] (fresh (always server_error)) server_error).
  - vm_compute; reflexivity.
  - vm_compute; reflexivity.
  - constructor.
  - reflexivity.
  - simpl. lia.
  - discriminate.
Defined.

(** [get_chunk] of a chunk whose stored bytes decode. *)
Lemma get_chunk_stored `{Libs} (url : string) (timeout : option Q)
  (array_name : string) (slices : list Slice) (dt : Dtype)
  (chunk_name : string) (shp : Shape) (body : list byte) (chunk : ndarray)
  (w : World) :
  let self := new_store (session_factory url timeout) url in
  chunk_metadata array_name slices None (Some dt) = inr (chunk_name, shp) ->
  http_url (_chunk_url self chunk_name) = true ->
  backend w = object_store ->
  stored (_chunk_url self chunk_name) (log w) = Some body ->
  read_array false body = inr chunk ->
  Forall session_ok (_pool w) ->
  exists w',
    get_chunk self array_name slices dt w =
      (checked chunk_name shp dt chunk, w').
Proof.
  intros self META U BE ST RD OK.
  destruct (object_store_serves w _ body (GET_of (_chunk_url self chunk_name))
              BE ST eq_refl) as [SERVE _].
  destruct (request_returns url timeout (Some chunk_name)
              (GET_of (_chunk_url self chunk_name))
              (fun response => read_array false (content response))
              w {| status_code := 200; content := body |} chunk OK U
              (SERVE eq_refl) no_error_200 RD)
    as (w' & t & R & _).
  exists w'. rewrite (get_chunk_unfold self _ _ _ _ _ w META).
  fold self in R. cbv beta in R. now rewrite R.
Qed.

(** X15. The last write wins: after [put_chunk] of [A] and then of [B]
    under the same chunk name on an object store, [get_chunk] returns
    [B] (given that the array file of [B] reads back as [B] and that [B]
    has the expected shape). *)
Theorem last_write_wins `{Libs} (url : string) (timeout : option Q)
  (array_name : string) (slices : list Slice) (A B : ndarray)
  (chunk_name : string) (shpA shpB : Shape) (fpA fpB : list byte)
  (w : World) :
  chunk_metadata array_name slices (Some A) None = inr (chunk_name, shpA) ->
  chunk_metadata array_name slices (Some B) None = inr (chunk_name, shpB) ->
  chunk_metadata array_name slices None (Some (dtype B)) =
    inr (chunk_name, shape B) ->
  write_array false A = inr fpA ->
  write_array false B = inr fpB ->
  read_array false fpB = inr B ->
  http_url (urljoin url (quote (chunk_name ++ ".npy"))) = true ->
  backend w = object_store ->
  Forall session_ok (_pool w) ->
  let self := new_store (session_factory url timeout) url in
  exists w1 w2 w3,
    put_chunk self array_name slices A w = (inr tt, w1) /\
    put_chunk self array_name slices B w1 = (inr tt, w2) /\
    get_chunk self array_name slices (dtype B) w2 = (inr B, w3).
Proof.
  intros MA MB MG WA WB RB U BE OK self.
  destruct (put_chunk_stores url timeout array_name slices A chunk_name shpA
              fpA w MA WA U BE OK) as (w1 & P1 & BE1 & OK1 & _ & _).
  destruct (put_chunk_stores url timeout array_name slices B chunk_name shpB
              fpB w1 MB WB U BE1 OK1) as (w2 & P2 & BE2 & OK2 & _ & ST2).
  destruct (get_chunk_stored url timeout array_name slices (dtype B)
              chunk_name (shape B) fpB B w2 MG U BE2 ST2 RB OK2)
    as (w3 & G).
  exists w1, w2, w3. repeat split; auto.
  fold self in G. rewrite G. unfold checked.
  now rewrite Shape_eqb_refl, Dtype_eqb_refl.
Qed.

Lemma last_write_wins_witness :
  let L := Fixture.libs [] in
  let B := {| shape := [2%Z; 1%Z];
              dtype := {| descr := "<f4"; hasobject := false |};
              buffer := [x09; x09; x09; x09; x09; x09; x09; x09] |} in
  exists w1 w2 w3,
    put_chunk (H := L) Fixture.store "b/arr" Fixture.slices Fixture.array
      (fresh object_store) = (inr tt, w1) /\
    put_chunk (H := L) Fixture.store "b/arr" Fixture.slices B w1 =
      (inr tt, w2) /\
    get_chunk (H := L) Fixture.store "b/arr" Fixture.slices (dtype B) w2 =
      (inr B, w3).
Proof.
  intros L B.
  apply (last_write_wins (H := L) Fixture.url (Some 10%Q) "b/arr"
           Fixture.slices Fixture.array B "b/arr/0_4" [2%Z; 1%Z] [2%Z; 1%Z]
           (Fixture.unary 3 ++ list_byte_of_string "<f4" ++ Fixture.unary 2 ++
            Fixture.unary 2 ++ Fixture.unary 1 ++ buffer Fixture.array)
           (Fixture.unary 3 ++ list_byte_of_string "<f4" ++ Fixture.unary 2 ++
            Fixture.unary 2 ++ Fixture.unary 1 ++ buffer B)).
  - vm_compute; reflexivity.
  - vm_compute; reflexivity.
  - vm_compute; reflexivity.
  - vm_compute; reflexivity.
  - vm_compute; reflexivity.
  - vm_compute; reflexivity.
  - vm_compute; reflexivity.
  - reflexivity.
  - constructor.
Defined.

(** X16. When the stored array differs from what the caller expects, in
    shape or in dtype, [get_chunk] after [put_chunk] raises [BadChunk]
    and returns no array. *)
Theorem get_chunk_detects_mismatch `{Libs} (url : string)
  (timeout : option Q) (array_name : string) (slices : list Slice)
  (A : ndarray) (dt : Dtype) (chunk_name : string) (shpA shp : Shape)
  (fp : list byte) (w : World) :
  chunk_metadata array_name slices (Some A) None = inr (chunk_name, shpA) ->
  chunk_metadata array_name slices None (Some dt) = inr (chunk_name, shp) ->
  write_array false A = inr fp ->
  read_array false fp = inr A ->
  http_url (urljoin url (quote (chunk_name ++ ".npy"))) = true ->
  backend w = object_store ->
  Forall session_ok (_pool w) ->
  shape A <> shp \/ dtype A <> dt ->
  let self := new_store (session_factory url timeout) url in
  exists w1 w2,
    put_chunk self array_name slices A w = (inr tt, w1) /\
    get_chunk self array_name slices dt w1 =
      (inl (mkExc BadChunk (bad_chunk_str chunk_name A dt shp)), w2).
Proof.
  intros MA MG WA RA U BE OK DIFF self.
  destruct (put_chunk_stores url timeout array_name slices A chunk_name shpA
              fp w MA WA U BE OK) as (w1 & P1 & BE1 & OK1 & _ & ST1).
  destruct (get_chunk_stored url timeout array_name slices dt
              chunk_name shp fp A w1 MG U BE1 ST1 RA OK1) as (w2 & G).
  exists w1, w2. split; [exact P1|].
  fold self in G. rewrite G. unfold checked.
  destruct (Shape_eqb (shape A) shp) eqn:S1;
    destruct (Dtype_eqb (dtype A) dt) eqn:D1; try reflexivity.
  apply Shape_eqb_eq in S1. apply Dtype_eqb_eq in D1. tauto.
Qed.

Lemma get_chunk_detects_mismatch_witness :
  let L := Fixture.libs [] in
  let f8 := {| descr := "<f8"; hasobject := false |} in
  exists w1 w2,
    put_chunk (H := L) Fixture.store "b/arr" Fixture.slices Fixture.array
      (fresh object_store) = (inr tt, w1) /\
    get_chunk (H := L) Fixture.store "b/arr" Fixture.slices f8 w1 =
      (inl (mkExc BadChunk
              (bad_chunk_str "b/arr/0_4" Fixture.array f8 [2%Z; 1%Z])), w2).
Proof.
  intros L f8.
  apply (get_chunk_detects_mismatch (H := L) Fixture.url (Some 10%Q) "b/arr"
           Fixture.slices Fixture.array f8 "b/arr/0_4" [2%Z; 1%Z] [2%Z; 1%Z]
           (Fixture.unary 3 ++ list_byte_of_string "<f4" ++ Fixture.unary 2 ++
            Fixture.unary 2 ++ Fixture.unary 1 ++ buffer Fixture.array)).
  - vm_compute; reflexivity.
  - vm_compute; reflexivity.
  - vm_compute; reflexivity.
  - vm_compute; reflexivity.
  - vm_compute; reflexivity.
  - reflexivity.
  - constructor.
  - right. discriminate.
Defined.

(** X17. When the body of the response is not an array file, the
    exception of the reader leaves [get_chunk] as it is (it is not
    turned into [BadChunk]), unless it is one of the two kinds that the
    error map of the store turns into [StoreUnavailable]. *)
Theorem get_chunk_passes_reader_errors `{Libs} (url : string)
  (timeout : option Q) (array_name : string) (slices : list Slice)
  (dt : Dtype) (chunk_name : string) (shp : Shape) (w : World)
  (r : Response) (e : Exc) :
  let self := new_store (session_factory url timeout) url in
  let u := urljoin url (quote (chunk_name ++ ".npy")) in
  chunk_metadata array_name slices None (Some dt) = inr (chunk_name, shp) ->
  http_url u = true ->
  Forall session_ok (_pool w) ->
  (forall t, tx_request t = GET_of u -> backend w (log w) t = Reply r) ->
  (status_code r < 400)%Z ->
  read_array false (content r) = inl e ->
  isinstance e RequestException = false ->
  isinstance e ParseError = false ->
  exists w', get_chunk self array_name slices dt w = (inl e, w').
Proof.
  intros self u META U OK B ST RD NR NP.
  destruct (request_body_raises url timeout (Some chunk_name) (GET_of u)
              (fun response => read_array false (content response))
              w r e OK U B)
    as (w' & t & R & _); auto.
  { replace (400 <=? status_code r)%Z with false
      by (symmetry; apply Z.leb_gt; lia). reflexivity. }
  exists w'. rewrite (get_chunk_unfold self _ _ _ _ _ w META).
  change (_chunk_url self chunk_name) with u. fold self in R.
  cbv beta in R. rewrite R. unfold standardised. now rewrite NR, NP.
Qed.

Lemma get_chunk_passes_reader_errors_witness :
  let L := Fixture.libs [] in
  exists w',
    get_chunk (H := L) Fixture.store "b/arr" Fixture.slices
      (dtype Fixture.array) (fresh (always empty_ok)) =
      (inl (mkExc ValueError "not an array file"), w').
Proof.
  intros L.
  apply (get_chunk_passes_reader_errors (H := L) Fixture.url (Some 10%Q)
           "b/arr" Fixture.slices (dtype Fixture.array) "b/arr/0_4"
           [2%Z; 1%Z] (fresh (always empty_ok)) empty_ok).
  - vm_compute; reflexivity.
  - vm_compute; reflexivity.
  - constructor.
  - reflexivity.
  - reflexivity.
  - reflexivity.
  - reflexivity.
  - reflexivity.
Defined.


(** ** Listing: edges *)

Lemma no_error_below_400 (r : Response) :
  (status_code r < 400)%Z ->
  ((400 <=? status_code r) && (status_code r <? 600))%Z = false.
Proof.
  intros ST. replace (400 <=? status_code r)%Z with false
    by (symmetry; apply Z.leb_gt; lia). reflexivity.
Qed.

(** X18. A first page that is marked truncated but holds no key ends
    the listing: [list_chunk_ids] returns the empty list after this one
    request and emits the warning. *)
Theorem listing_gives_up_without_keys `{Libs} (url : string)
  (timeout : option Q) (array_name bucket prefix : string)
  (body : list byte) (w : World) (fuel : nat) :
  let self := new_store (session_factory url timeout) url in
  let u := urljoin url (quote bucket) in
  split array_name 1 = inr (bucket, prefix) ->
  http_url u = true ->
  Forall session_ok (_pool w) ->
  (forall t, tx_request t = listing_request u (first_params prefix) ->
             backend w (log w) t = ok body) ->
  fromstring body = inr (listing [] true) ->
  0 < fuel ->
  exists w' t,
    list_chunk_ids fuel self array_name w = Some (inr [], w') /\
    log w' = log w ++ [t] /\
    warnings w' =
      warnings w ++ ["Result had no keys but was marked as truncated"].
Proof.
  intros self u SPLIT U OK B PARSE FUEL.
  destruct fuel as [|fuel]; [lia|].
  destruct (request_returns url timeout None
              (listing_request u (first_params prefix))
              (fun response => fromstring (content response)) w
              {| status_code := 200; content := body |} (listing [] true)
              OK U B no_error_200 PARSE)
    as (w' & t & R & _ & LOG & _ & WARN & _).
  exists (add_warning "Result had no keys but was marked as truncated" w'), t.
  unfold list_chunk_ids. rewrite SPLIT. cbn [list_pages].
  change (urljoin (_url self) (quote bucket)) with u.
  fold (first_params prefix). fold self in R. cbv beta in R.
  rewrite R. rewrite keys_of_listing. cbn [map app].
  rewrite next_page_no_keys. cbn [chunk_ids add_warning log warnings].
  rewrite LOG, WARN. auto.
Qed.

Lemma listing_gives_up_without_keys_witness :
  let L := Fixture.libs [listing [] true] in
  let w := fresh (scripted [ok []]) in
  exists w' t,
    list_chunk_ids (H := L) 5 Fixture.store "b/arr" w = Some (inr [], w') /\
    log w' = log w ++ [t] /\
    warnings w' =
      warnings w ++ ["Result had no keys but was marked as truncated"].
Proof.
  intros L w.
  apply (listing_gives_up_without_keys (H := L) Fixture.url (Some 10%Q)
           "b/arr" "b" "arr" [] w 5).
  - reflexivity.
  - reflexivity.
  - constructor.
  - reflexivity.
  - reflexivity.
  - lia.
Defined.

(** X19. Against a backend that sends the listing in pages, all but the
    last marked truncated: the first request of [list_chunk_ids] carries
    [prefix] and [max-keys] and no marker, and every following request
    carries the same two with, as [marker], the last key retrieved so
    far. *)
Theorem listing_continues_from_last_key `{Libs} (url : string)
  (timeout : option Q) (array_name bucket prefix : string)
  (bodies : list (list byte)) (pages : list (list string))
  (last : list string) (last_body : list byte) (w : World) (fuel : nat) :
  split array_name 1 = inr (bucket, prefix) ->
  http_url (urljoin url (quote bucket)) = true ->
  Forall session_ok (_pool w) ->
  Forall2 (fun body keys => fromstring body = inr (listing keys true))
    bodies pages ->
  fromstring last_body = inr (listing last false) ->
  plays (backend w) (List.length (log w)) (map ok (bodies ++ [last_body])) ->
  pages = [] \/ hd [] pages <> [] ->
  List.length pages < fuel ->
  exists r w' sent,
    list_chunk_ids fuel (new_store (session_factory url timeout) url)
      array_name w = Some (r, w') /\
    log w' = log w ++ sent /\
    map (fun t => req_params (tx_request t)) sent =
      first_params prefix :: later_params (first_params prefix) [] pages.
Proof.
  intros SPLIT U OK F LAST PLAY NE FUEL.
  destruct (list_pages_params url timeout (urljoin url (quote bucket))
              (first_params prefix) last last_body U LAST bodies pages F []
              (first_params prefix) w fuel)
    as (w' & sent & L & LOG & PARAMS); auto.
  eexists _, w', sent. unfold list_chunk_ids. rewrite SPLIT.
  cbn [new_store _url]. fold (first_params prefix). rewrite L. auto.
Qed.

Lemma listing_continues_from_last_key_witness :
  let L := Fixture.libs three_pages in
  let w := fresh (scripted (map ok [[]; [x00]; [x00; x00]])) in
  let p0 := first_params "arr" in
  exists r w' sent,
    list_chunk_ids (H := L) 3 Fixture.store "b/arr" w = Some (r, w') /\
    log w' = log w ++ sent /\
    map (fun t => req_params (tx_request t)) sent =
      [p0; p0 ++ [("marker", PStr "arr/0002.npy")];
       p0 ++ [("marker", PStr "arr/0003.npy")]].
Proof.
  intros L w p0.
  apply (listing_continues_from_last_key (H := L) Fixture.url (Some 10%Q)
           "b/arr" "b" "arr" [[]; [x00]]
           [map (key_of "arr") ["0001"; "0002"]; map (key_of "arr") ["0003"]]
           (map (key_of "arr") ["0004"; "0005"]) [x00; x00] w 3).
  - reflexivity.
  - reflexivity.
  - constructor.
  - repeat constructor.
  - reflexivity.
  - apply scripted_plays.
  - right. discriminate.
  - simpl. lia.
Defined.

(** X20. When the body of a listing response does not parse, the
    [ParseError] leaves [list_chunk_ids] as [StoreUnavailable], after
    that one request. *)
Theorem listing_maps_parse_errors `{Libs} (url : string)
  (timeout : option Q) (array_name bucket prefix : string)
  (r : Response) (e : Exc) (w : World) (fuel : nat) :
  let self := new_store (session_factory url timeout) url in
  let u := urljoin url (quote bucket) in
  split array_name 1 = inr (bucket, prefix) ->
  http_url u = true ->
  Forall session_ok (_pool w) ->
  (forall t, tx_request t = listing_request u (first_params prefix) ->
             backend w (log w) t = Reply r) ->
  (status_code r < 400)%Z ->
  fromstring (content r) = inl e ->
  isinstance e ParseError = true ->
  0 < fuel ->
  exists w' t,
    list_chunk_ids fuel self array_name w =
      Some (inl (mkExc StoreUnavailable (standard_str None (exc_msg e))),
            w') /\
    log w' = log w ++ [t].
Proof.
  intros self u SPLIT U OK B ST PARSE PE FUEL.
  destruct fuel as [|fuel]; [lia|].
  destruct (request_body_raises url timeout None
              (listing_request u (first_params prefix))
              (fun response => fromstring (content response)) w r e
              OK U B (no_error_below_400 r ST) PARSE)
    as (w' & t & R & _ & LOG & _).
  exists w', t.
  unfold list_chunk_ids. rewrite SPLIT. cbn [list_pages].
  change (urljoin (_url self) (quote bucket)) with u.
  fold (first_params prefix). fold self in R. cbv beta in R.
  rewrite R. unfold standardised. rewrite PE, orb_true_r. auto.
Qed.

Lemma listing_maps_parse_errors_witness :
  let L := Fixture.libs [] in
  let w := fresh (always empty_ok) in
  exists w' t,
    list_chunk_ids (H := L) 1 Fixture.store "b/arr" w =
      Some (inl (mkExc StoreUnavailable "syntax error"), w') /\
    log w' = log w ++ [t].
Proof.
  intros L w.
  apply (listing_maps_parse_errors (H := L) Fixture.url (Some 10%Q)
           "b/arr" "b" "arr" empty_ok (mkExc ParseError "syntax error") w 1).
  - reflexivity.
  - reflexivity.
  - constructor.
  - reflexivity.
  - reflexivity.
  - reflexivity.
  - reflexivity.
  - lia.
Defined.

Lemma chunk_ids_none (prefix : string) (keys : list PyStr) :
  In None keys ->
  chunk_ids prefix keys =
    inl (mkExc AttributeError
           "'NoneType' object has no attribute 'endswith'").
Proof.
  induction keys as [|[key|] keys IH]; simpl.
  - tauto.
  - intros [E|IN]; [discriminate|]. now rewrite IH.
  - reflexivity.
Qed.

(** X21. When a page of the listing holds a key element without text,
    [list_chunk_ids] raises [AttributeError] once the pages are read:
    the strings are sliced outside the error scope, and [None] has no
    [endswith]. *)
Theorem listing_fails_on_key_without_text `{Libs} (url : string)
  (timeout : option Q) (array_name bucket prefix : string)
  (body : list byte) (root : Element) (w : World) (fuel : nat) :
  let self := new_store (session_factory url timeout) url in
  let u := urljoin url (quote bucket) in
  split array_name 1 = inr (bucket, prefix) ->
  http_url u = true ->
  Forall session_ok (_pool w) ->
  (forall t, tx_request t = listing_request u (first_params prefix) ->
             backend w (log w) t = ok body) ->
  fromstring body = inr root ->
  find (NS ++ "IsTruncated") root = None ->
  In None (map text (iter (NS ++ "Key") root)) ->
  0 < fuel ->
  exists w' t,
    list_chunk_ids fuel self array_name w =
      Some (inl (mkExc AttributeError
                   "'NoneType' object has no attribute 'endswith'"), w') /\
    log w' = log w ++ [t].
Proof.
  intros self u SPLIT U OK B PARSE FLAG NOTEXT FUEL.
  destruct fuel as [|fuel]; [lia|].
  destruct (request_returns url timeout None
              (listing_request u (first_params prefix))
              (fun response => fromstring (content response)) w
              {| status_code := 200; content := body |} root
              OK U B no_error_200 PARSE)
    as (w' & t & R & _ & LOG & _).
  exists w', t.
  unfold list_chunk_ids. rewrite SPLIT. cbn [list_pages].
  change (urljoin (_url self) (quote bucket)) with u.
  fold (first_params prefix). fold self in R. cbv beta in R.
  rewrite R. unfold next_page. rewrite FLAG. cbn [app].
  now rewrite (chunk_ids_none prefix _ NOTEXT).
Qed.

Lemma listing_fails_on_key_without_text_witness :
  let L := Fixture.libs [page_with_empty_key] in
  let w := fresh (scripted [ok []]) in
  exists w' t,
    list_chunk_ids (H := L) 1 Fixture.store "b/arr" w =
      Some (inl (mkExc AttributeError
                   "'NoneType' object has no attribute 'endswith'"), w') /\
    log w' = log w ++ [t].
Proof.
  intros L w.
  apply (listing_fails_on_key_without_text (H := L) Fixture.url (Some 10%Q)
           "b/arr" "b" "arr" [] page_with_empty_key w 1).
  - reflexivity.
  - reflexivity.
  - constructor.
  - reflexivity.
  - reflexivity.
  - reflexivity.
  - left. reflexivity.
  - lia.
Defined.


(** ** Repeated attempts of a PUT *)

